(** * Retry and resume engine of the BanquePopulaire browser

    Shallow embedding of [modules/banquepopulaire/browser.py]:
    the [retry] decorator, the [iter_retry] resumable iterator, the
    [no_need_login] guard and [do_login].

    Python objects are modelled by the protocol the code uses on them:
    - a record is a value of a type [V] with a [to_dict] attribute that may be
      absent ([None]) and an [==] ([py_eqb]);
    - an iterator is the finite script of what its successive [next()] calls
      do (yield a record or raise), ending in [StopIteration] for ever;
    - the callback [cb] is the stateful site: its [n]-th invocation has a
      fixed outcome [cb n], and the number of invocations made so far is
      threaded through the state ([cb_calls]);
    - [isinstance(exc, exc_check)] is a boolean predicate on exceptions. *)

From Stdlib Require Import List ZArith Lia Bool String.
From Stdlib Require Import Sorted Permutation.
Import ListNotations.
Local Open Scope Z_scope.

Set Implicit Arguments.

(** ** Exceptions *)

(** The three messages [BrowserUnavailable] is raised with. *)
Inductive unavailable (V : Type) : Type :=
| DidNotReply                         (* 'Site did not reply successfully after multiple tries' *)
| RepliedInconsistently (sent new : V) (* 'Site replied inconsistently between retries, %r vs %r' *)
| RepliedFewer (got expected : nat).   (* 'Site replied fewer elements (%d) than last iteration (%d)' *)

Arguments DidNotReply {V}.
Arguments RepliedFewer {V} got expected.

Inductive exn (V : Type) : Type :=
| StopIteration
| TypeError
| AttributeError
| BrowserUnavailable (m : unavailable V)
| BrowserIncorrectPassword
| LoggedOut
| OtherException (name : string).

Arguments StopIteration {V}.
Arguments TypeError {V}.
Arguments AttributeError {V}.
Arguments BrowserIncorrectPassword {V}.
Arguments LoggedOut {V}.
Arguments OtherException {V} name.

(** What a call does: return a value or raise. *)
Inductive outcome (V A : Type) : Type :=
| Return (a : A)
| Raise (e : exn V).

Arguments Return {V A} a.
Arguments Raise {V A} e.

Definition is_StopIteration {V} (e : exn V) : bool :=
  match e with StopIteration => true | _ => false end.

(** [retry(LoggedOut)]: the class every decorated method of the browser uses. *)
Definition is_LoggedOut {V} (e : exn V) : bool :=
  match e with LoggedOut => true | _ => false end.

(** ** Python objects returned by the decorated function *)

Inductive event (V : Type) : Type :=
| EvYield (v : V)
| EvRaise (e : exn V).

Inductive pyobj (V : Type) : Type :=
| PyNone
| PyValue (v : V)                     (* a simple value, without __iter__ *)
| PyIter (script : list (event V)).   (* an iterator and what is left of it *)

Arguments PyNone {V}.

(** [hasattr(ret, '__iter__')] *)
Definition has_iter {V} (o : pyobj V) : bool :=
  match o with PyIter _ => true | _ => false end.

(** [o is None] *)
Definition is_None {V} (o : pyobj V) : bool :=
  match o with PyNone => true | _ => false end.

(** [next(o)]: the result and the object afterwards. *)
Definition py_next {V} (o : pyobj V) : outcome V V * pyobj V :=
  match o with
  | PyIter [] => (Raise StopIteration, PyIter [])
  | PyIter (EvYield v :: k) => (Return v, PyIter k)
  | PyIter (EvRaise e :: k) => (Raise e, PyIter k)
  | _ => (Raise TypeError, o)
  end.

(** What one invocation of the decorated function does. *)
Inductive call_result (V : Type) : Type :=
| CallReturn (o : pyobj V)
| CallRaise (e : exn V).

(** ** The resumable iterator *)

Record iter_retry (V : Type) : Type := mk_iter_retry {
  it : pyobj V;          (* self.it *)
  items : list V;        (* self.items *)
  remaining : Z;         (* self.remaining *)
  cb_calls : nat         (* invocations of self.cb made so far *)
}.

(** [iter_retry(cb, remaining=..., value=..., exc_check=..., logger=...)],
    built when [calls] invocations of [cb] have been made: [self.it] is
    [value] and [self.items] is empty. *)
Definition __init__ {V} (remaining : Z) (value : pyobj V) (calls : nat)
  : iter_retry V :=
  mk_iter_retry value [] remaining calls.

(** [def retry(exc_check, tries=4)] *)
Definition default_tries : Z := 4.

(** What the wrapper of [retry] returns. *)
Inductive wrapped (V : Type) : Type :=
| Simple (o : pyobj V)                (* return ret *)
| Resumable (s : iter_retry V).       (* return iter_retry(cb, value=ret, remaining=i, ...) *)

(** ** The browser *)

(** The attributes of [BanquePopulaire] that [do_login] and its guard use;
    [page] stands for [self.page] and the rest of the session. [username]
    and [password] are strings, as [do_login] asserts. *)
Record browser (P : Type) : Type := mk_browser {
  no_login : Z;
  BASEURL : string;
  username : string;
  password : string;
  page : P
}.

(** ** Types of the other methods of the browser *)

(** The browser with its list of candidate tasks, [self.ACCOUNT_URLS]. *)
Record accounts_browser (P : Type) : Type := mk_accounts_browser {
  ACCOUNT_URLS : list string;
  session : browser P
}.

(** [ACCOUNT_URLS] of the class. *)
Definition default_ACCOUNT_URLS : list string :=
  ["mesComptes"; "mesComptesPRO"; "maSyntheseGratuite"; "accueilSynthese";
   "equipementComplet"]%string.

(** A date, compared as Python compares [date] objects. *)
Record date : Type := mk_date { year : Z; month : Z; day : Z }.

Definition date_ltb (d1 d2 : date) : bool :=
  (year d1 <? year d2) ||
  ((year d1 =? year d2) &&
   ((month d1 <? month d2) ||
    ((month d1 =? month d2) && (day d1 <? day d2)))).

(** [d1 == d2] on dates. *)
Definition date_eqb (d1 d2 : date) : bool :=
  (year d1 =? year d2) && (month d1 =? month d2) && (day d1 =? day d2).

(** What the request for the PDF of a year does. *)
Inductive pdf_result (V : Type) : Type :=
| PdfGoRaises (e : exn V)                   (* self.natixis_pdf.go(...) raises *)
| PdfHistory (history : outcome V (list V)). (* list(self.page.get_history()) *)

(** ** A concrete site, for the scenarios *)

Module Scenario.

(** Records: plain strings, and accounts, which have [to_dict] and no
    [__eq__] of their own (two account objects are never [==]). *)
Inductive record : Type :=
| Str (s : string)
| Account (id label : string).

Definition to_dict (r : record) : option (list (string * string)) :=
  match r with
  | Account id label => Some [("id"%string, id); ("label"%string, label)]
  | Str _ => None
  end.

Fixpoint dict_eqb (d1 d2 : list (string * string)) : bool :=
  match d1, d2 with
  | [], [] => true
  | (k1, v1) :: t1, (k2, v2) :: t2 =>
      String.eqb k1 k2 && String.eqb v1 v2 && dict_eqb t1 t2
  | _, _ => false
  end.

Definition py_eqb (a b : record) : bool :=
  match a, b with
  | Str x, Str y => String.eqb x y
  | _, _ => false
  end.

Definition A : record := Account "A" "Compte courant".
Definition B : record := Account "B" "Livret".
Definition C : record := Account "C" "PEA".
Definition D : record := Account "D" "Assurance vie".
Definition X : record := Account "X" "Livret".

(** The call fails once, then the producer of [A; B; C; D] fails after two
    records, then after one (during the replay), then is complete. *)
Definition recovering (n : nat) : call_result record :=
  match n with
  | 0%nat => CallRaise LoggedOut
  | 1%nat => CallReturn (PyIter [EvYield A; EvYield B; EvRaise LoggedOut])
  | 2%nat => CallReturn (PyIter [EvYield A; EvRaise LoggedOut])
  | _ => CallReturn (PyIter [EvYield A; EvYield B; EvYield C; EvYield D])
  end.

(** The call fails once, then the producer fails after two records at
    every attempt. *)
Definition always_failing (n : nat) : call_result record :=
  match n with
  | 0%nat => CallRaise LoggedOut
  | _ => CallReturn (PyIter [EvYield A; EvYield B; EvRaise LoggedOut])
  end.

(** A simple value at the fourth invocation. *)
Definition fourth_time (n : nat) : call_result record :=
  match n with
  | 0%nat | 1%nat | 2%nat => CallRaise LoggedOut
  | _ => CallReturn (PyValue A)
  end.

Definition never (n : nat) : call_result record := CallRaise LoggedOut.

(** The recreated producer gives [X] where [B] had been sent. *)
Definition inconsistent (n : nat) : call_result record :=
  match n with
  | 0%nat => CallReturn (PyIter [EvYield A; EvYield B; EvRaise LoggedOut])
  | _ => CallReturn (PyIter [EvYield A; EvYield X; EvYield C; EvYield D])
  end.

(** The recreated producer ends after [A] where [A; B] had been sent. *)
Definition shorter (n : nat) : call_result record :=
  match n with
  | 0%nat => CallReturn (PyIter [EvYield A; EvYield B; EvRaise LoggedOut])
  | _ => CallReturn (PyIter [EvYield A])
  end.

(** Logged out at the first invocation; from the second on, the login
    that the invocation starts with is refused. *)
Definition locked_out (n : nat) : call_result record :=
  match n with
  | 0%nat => CallRaise LoggedOut
  | _ => CallRaise BrowserIncorrectPassword
  end.

(** The producer fails after [A], and the invocation that should recreate
    it raises [LoggedOut] itself. *)
Definition recreation_refused (n : nat) : call_result record :=
  match n with
  | 0%nat => CallReturn (PyIter [EvYield A; EvRaise LoggedOut])
  | _ => CallRaise LoggedOut
  end.

(** The producer fails after [A] at every attempt. *)
Definition failing_each_time (n : nat) : call_result record :=
  CallReturn (PyIter [EvYield A; EvRaise LoggedOut]).

(** A site with a login page: the right password leads to the accounts. *)
Inductive page_kind : Type := NoPage | LoginPage | AccountsPage.

Definition location (url : string) (b : browser page_kind)
  : option (exn record) * browser page_kind :=
  (None, mk_browser (no_login b) (BASEURL b) (username b) (password b) LoginPage).

Definition page_login (u p : string) (b : browser page_kind)
  : option (exn record) * browser page_kind :=
  (None,
   mk_browser (no_login b) (BASEURL b) (username b) (password b)
              (if String.eqb p "secret" then AccountsPage else LoginPage)).

Definition login_page_is_here (b : browser page_kind) : bool :=
  match page b with LoginPage => true | _ => false end.

Definition visitor : browser page_kind :=
  mk_browser 0 "https://www.ibps.example" "12345678" "guess" NoPage.

(** [a.id] of a record. *)
Definition get_id (r : record) : string :=
  match r with
  | Str s => s
  | Account id _ => id
  end.

(** Every invocation returns the complete producer of [A; B]. *)
Definition steady (n : nat) : call_result record :=
  CallReturn (PyIter [EvYield A; EvYield B]).

(** A site where only the task [maSyntheseGratuite] leads to the
    accounts, and only for a session that has kept its user; all the rest
    leads to a page of error. *)
Definition start_task (base : bool) (t : string) (b : browser page_kind)
  : option (exn record) * browser page_kind :=
  (None,
   mk_browser (no_login b) (BASEURL b) (username b) (password b)
              (if String.eqb t "maSyntheseGratuite"
                  && negb (String.eqb (username b) "")
               then AccountsPage else NoPage)).

(** A site where every task leads to a page of error. *)
Definition start_task_down (base : bool) (t : string) (b : browser page_kind)
  : option (exn record) * browser page_kind :=
  (None, mk_browser (no_login b) (BASEURL b) (username b) (password b) NoPage).

Definition page_is_error (b : browser page_kind) : bool :=
  match page b with AccountsPage => false | _ => true end.

Definition no_pop_up (b : browser page_kind) : bool := false.

Definition full_list (b : browser page_kind) : bool := false.

Definition submit_nothing (b : browser page_kind)
  : option (exn record) * browser page_kind := (None, b).

(** Transactions of a contract: a label and a date. *)
Definition transaction : Type := (string * date)%type.

Definition json_history : list transaction :=
  [ ("versement"%string, mk_date 2015 3 2);
    ("arbitrage"%string, mk_date 2016 1 15);
    ("frais"%string, mk_date 2015 12 31);
    ("interets"%string, mk_date 2016 1 15) ].

Definition no_pdf (y : Z) : pdf_result transaction :=
  PdfGoRaises (OtherException "HTTPNotFound").

(** The browser of the visitor, with the tasks of the class. *)
Definition at_home : accounts_browser page_kind :=
  mk_accounts_browser default_ACCOUNT_URLS visitor.

(** A list of accounts on two pages. The page of the browser is its
    number; an account is a record with its IBAN. *)
Definition listed : Type := (record * option string)%type.

Definition on_page (n : nat) (b : browser nat) : browser nat :=
  mk_browser (no_login b) (BASEURL b) (username b) (password b) n.

Definition list_start_task (base : bool) (t : string) (b : browser nat)
  : option (exn listed) * browser nat := (None, on_page 1 b).

Definition never_here (b : browser nat) : bool := false.

Definition always_here (b : browser nat) : bool := true.

Definition list_submit (b : browser nat)
  : option (exn listed) * browser nat := (None, b).

Definition list_iter_accounts (b : browser nat)
  : list listed * option (exn listed) * list nat :=
  match page b with
  | 1%nat => ([(A, None); (B, None)], None, [2%nat])
  | 2%nat => ([(C, None)], None, [])
  | _ => ([], None, [])
  end.

(** The same list, on a site that logs out after [C]. *)
Definition list_iter_accounts_logged_out (b : browser nat)
  : list listed * option (exn listed) * list nat :=
  match page b with
  | 1%nat => ([(A, None); (B, None)], None, [2%nat])
  | 2%nat => ([(C, None)], Some LoggedOut, [])
  | _ => ([], None, [])
  end.

Definition list_prev_action (n : nat) : option string := None.

Definition list_continue_prev (action : string) (b : browser nat)
  : option (exn listed) * browser nat := (None, b).

Definition list_continue_task (n : nat) (b : browser nat)
  : option (exn listed) * browser nat := (None, on_page n b).

Definition list_iban_task (b : browser nat)
  : option (exn listed) * browser nat := (None, on_page 9 b).

(** [C] is a market account. *)
Definition list_type_without_iban (a : listed) : bool :=
  String.eqb (get_id (fst a)) "C".

Definition list_go_iban (a : listed) (b : browser nat)
  : outcome listed bool * browser nat := (Return true, b).

Definition list_get_iban (a : listed) (b : browser nat)
  : outcome listed (option string) * browser nat :=
  (Return (Some ("FR76" ++ get_id (fst a))%string), b).

Definition list_set_iban (a : listed) (iban : option string) : listed :=
  (fst a, iban).

Definition list_home : accounts_browser nat :=
  mk_accounts_browser default_ACCOUNT_URLS
    (mk_browser 0 "https://www.ibps.example" "12345678" "secret" 0%nat).

End Scenario.

Section Engine.

Variables V D : Type.
Variable to_dict : V -> option D.       (* None: no attribute to_dict *)
Variable dict_eqb : D -> D -> bool.     (* == on the dicts *)
Variable py_eqb : V -> V -> bool.       (* == on the records *)
Variable exc_check : exn V -> bool.     (* isinstance(exc, exc_check) *)
Variable cb : nat -> call_result V.     (* the n-th invocation of cb() *)

(** The comparison of the replay loop:
<<
    if hasattr(new, 'to_dict'):
        equal = sent.to_dict() == new.to_dict()
    else:
        equal = sent == new
>> *)
Definition records_equal (sent new : V) : outcome V bool :=
  match to_dict new with
  | Some dn =>
      match to_dict sent with
      | Some ds => Return (dict_eqb ds dn)
      | None => Raise AttributeError
      end
  | None => Return (py_eqb sent new)
  end.

(** The body of the [try] that consumes the previous items, from index
    [nb] on. [None]: the loop ended; [Some (e, nb)]: [e] was raised while
    the loop variable was [nb]. *)
Fixpoint replay (nb : nat) (sent_items : list V) (o : pyobj V)
  : option (exn V * nat) * pyobj V :=
  match sent_items with
  | [] => (None, o)
  | sent :: rest =>
      match py_next o with
      | (Raise e, o') => (Some (e, nb), o')
      | (Return new, o') =>
          match records_equal sent new with
          | Raise e => (Some (e, nb), o')
          | Return false =>
              (Some (BrowserUnavailable (RepliedInconsistently sent new), nb), o')
          | Return true => replay (S nb) rest o'
          end
      end
  end.

Definition set_it (s : iter_retry V) (o : pyobj V) : iter_retry V :=
  mk_iter_retry o (items s) (remaining s) (cb_calls s).

(** [self.it = None; self.remaining -= 1] *)
Definition give_up_iterator (s : iter_retry V) : iter_retry V :=
  mk_iter_retry PyNone (items s) (remaining s - 1) (cb_calls s).

(** The part of [__next__] under "return one item"; [self_next] is the
    recursive call [next(self)]. *)
Definition return_one_item
    (self_next : iter_retry V -> outcome V V * iter_retry V)
    (s : iter_retry V) : outcome V V * iter_retry V :=
  match py_next (it s) with
  | (Raise e, o') =>
      if exc_check e then self_next (give_up_iterator s)
      else (Raise e, set_it s o')
  | (Return obj, o') =>
      (Return obj, mk_iter_retry o' (items s ++ [obj]) (remaining s) (cb_calls s))
  end.

(** [__next__] after its first test ([self.remaining <= 0]). *)
Definition next_body
    (self_next : iter_retry V -> outcome V V * iter_retry V)
    (s : iter_retry V) : outcome V V * iter_retry V :=
  if is_None (it s) then
    match cb (cb_calls s) with
    | CallRaise e =>
        (* self.cb() is outside the try: whatever it raises goes out *)
        (Raise e, mk_iter_retry PyNone (items s) (remaining s) (S (cb_calls s)))
    | CallReturn o =>
        let s1 := mk_iter_retry o (items s) (remaining s) (S (cb_calls s)) in
        match replay 0 (items s1) o with
        | (None, o') => return_one_item self_next (set_it s1 o')
        | (Some (e, nb), o') =>
            if is_StopIteration e then
              (Raise (BrowserUnavailable
                        (RepliedFewer (nb + 1)%nat (List.length (items s1)))),
               set_it s1 o')
            else if exc_check e then self_next (give_up_iterator s1)
            else (Raise e, set_it s1 o')
        end
    end
  else return_one_item self_next s.

(** [__next__], by recursion on the budget: each [next(self)] is made after
    [self.remaining -= 1]. [None] is for a fuel that is too small, which
    [__next__] below never gives. *)
Fixpoint next_rec (fuel : nat) (s : iter_retry V)
  : option (outcome V V * iter_retry V) :=
  if remaining s <=? 0 then
    Some (Raise (BrowserUnavailable DidNotReply), s)
  else
    match fuel with
    | O => None
    | S fuel' =>
        Some (next_body
                (fun s' =>
                   match next_rec fuel' s' with
                   | Some r => r
                   | None => (Raise (BrowserUnavailable DidNotReply), s')
                   end) s)
    end.

Definition __next__ (s : iter_retry V) : outcome V V * iter_retry V :=
  match next_rec (Z.to_nat (remaining s)) s with
  | Some r => r
  | None => (Raise (BrowserUnavailable DidNotReply), s)
  end.

(** The consumer: a [for] loop over the iterator, which stops at the
    first exception ([StopIteration] ends it normally). [fuel] bounds the
    number of records it pulls; [None] when it stopped pulling first. *)
Fixpoint for_loop (fuel : nat) (s : iter_retry V)
  : list V * option (exn V) * iter_retry V :=
  match fuel with
  | O => ([], None, s)
  | S fuel' =>
      match __next__ s with
      | (Return obj, s') =>
          let '(objs, e, s'') := for_loop fuel' s' in (obj :: objs, e, s'')
      | (Raise e, s') => ([], Some e, s')
      end
  end.

(** ** The decorator *)

(** The loop [for i in xrange(tries, 0, -1)] of [wrapper], with [i] the
    successor of [n'], after [calls] invocations of [cb]. *)
Fixpoint wrapper_loop (n calls : nat) : outcome V (wrapped V) * nat :=
  match n with
  | O => (Raise (BrowserUnavailable DidNotReply), calls)
  | S n' =>
      match cb calls with
      | CallRaise e =>
          if exc_check e then wrapper_loop n' (S calls)
          else (Raise e, S calls)
      | CallReturn ret =>
          if negb (has_iter ret) then (Return (Simple ret), S calls)
          else (Return (Resumable
                          (mk_iter_retry ret [] (Z.of_nat (S n')) (S calls))),
                S calls)
      end
  end.

Definition wrapper (tries : Z) : outcome V (wrapped V) * nat :=
  wrapper_loop (Z.to_nat tries) 0.

(** Calling the decorated function and iterating on what it returns:
    the records the caller gets, how it ends, and the number of
    invocations of the function. A simple value is returned as it is. *)
Inductive observed : Type :=
| GotValue (o : pyobj V) (calls : nat)
| GotRecords (objs : list V) (e : option (exn V)) (calls : nat).

Definition call_and_iterate (tries : Z) (fuel : nat) : observed :=
  match wrapper tries with
  | (Raise e, calls) => GotRecords [] (Some e) calls
  | (Return (Simple o), calls) => GotValue o calls
  | (Return (Resumable s), _) =>
      let '(objs, e, s') := for_loop fuel s in GotRecords objs e (cb_calls s')
  end.

(** The invocations of the function that [__next__] makes in that run,
    that is the recreations of the iterator. The invocations the wrapper
    makes, the one that creates the first iterator included, are not
    counted. *)
Definition recreations (tries : Z) (fuel : nat) : nat :=
  match wrapper tries with
  | (Return (Resumable s), calls) =>
      let '(_, _, s') := for_loop fuel s in (cb_calls s' - calls)%nat
  | _ => 0%nat
  end.

(** ** Notions the statements use *)

(** [agree sent new]: the comparison of the replay loop accepts [new]. *)
Definition agree (sent new : V) : Prop := records_equal sent new = Return true.

(** [drains s objs e s']: a [for] loop over [s] gets [objs], ends with
    [e] and leaves [s'], as soon as it is allowed one more pull than there
    are records. *)
Definition drains (s : iter_retry V) (objs : list V) (e : exn V)
    (s' : iter_retry V) : Prop :=
  forall fuel, (List.length objs < fuel)%nat ->
               for_loop fuel s = (objs, Some e, s').

(** Deterministic producers and schedules of failures. *)

(** The iterator of the records [xs]. *)
Definition producer (xs : list V) : pyobj V := PyIter (map (@EvYield V) xs).

(** The iterator of the records [xs] that raises [e] after [cut] of them
    (and does [k] if asked again). *)
Definition fails_after (xs : list V) (cut : nat) (e : exn V)
    (k : list (event V)) : pyobj V :=
  PyIter (map (@EvYield V) (firstn cut xs) ++ EvRaise e :: k).

(** An attempt that returns the producer of [xs] with a transient failure
    injected at some point. *)
Definition transient_attempt (xs : list V) (res : call_result V) : Prop :=
  exists cut e k,
    (cut <= List.length xs)%nat /\
    res = CallReturn (fails_after xs cut e k) /\
    exc_check e = true /\ is_StopIteration e = false.

(** An attempt in which the call of the function itself raises a
    transient exception. *)
Definition transient_call (res : call_result V) : Prop :=
  exists e, res = CallRaise e /\ exc_check e = true.

(** ** Login *)

(** The site, as [do_login] uses it: [self.location(url)],
    [self.page.login(username, password)] and [self.login_page.is_here()].
    The first two may raise ([Some e]) and leave the browser as they
    like. *)
Variable P : Type.
Variable location : string -> browser P -> option (exn V) * browser P.
Variable page_login :
  string -> string -> browser P -> option (exn V) * browser P.
Variable login_page_is_here : browser P -> bool.

Definition set_no_login (b : browser P) (n : Z) : browser P :=
  mk_browser n (BASEURL b) (username b) (password b) (page b).

(** A statement of a method body: it may raise, and changes the browser. *)
Definition stmt : Type := browser P -> option (exn V) * browser P.

(** Running the statements of a body in sequence, up to the first that
    raises. *)
Fixpoint exec (body : list stmt) (b : browser P) : option (exn V) * browser P :=
  match body with
  | [] => (None, b)
  | st :: rest =>
      match st b with
      | (Some e, b') => (Some e, b')
      | (None, b') => exec rest b'
      end
  end.

(** The states the browser goes through while the body runs: before its
    first statement and after each statement run. *)
Fixpoint visited (body : list stmt) (b : browser P) : list (browser P) :=
  b :: match body with
       | [] => []
       | st :: rest =>
           match st b with
           | (Some _, b') => [b']
           | (None, b') => visited rest b'
           end
       end.

(** [no_need_login]:
<<
      browser.no_login += 1
      try:
          return func(browser, *args, **kwargs)
      finally:
          browser.no_login -= 1
>>
    The wrapper hands over whatever [func] gives, a value or an
    exception: the result [r] of [func] is of any type [R]. *)
Definition no_need_login (R : Type) (func : browser P -> R * browser P)
    (b : browser P) : R * browser P :=
  let b1 := set_no_login b (no_login b + 1) in
  let (r, b2) := func b1 in
  (r, set_no_login b2 (no_login b2 - 1)).

(** The body of [do_login], under its two assertions. *)
Definition do_login_body : list stmt :=
  [ (fun b => location (BASEURL b) b);
    (fun b => page_login (username b) (password b) b);
    (fun b => if login_page_is_here b
              then (Some BrowserIncorrectPassword, b)
              else (None, b)) ].

Definition do_login : browser P -> option (exn V) * browser P :=
  no_need_login (exec do_login_body).

(** A body run under observation: what [exec] gives, together with the
    states the browser goes through meanwhile. *)
Definition exec_observed (body : list stmt) (b : browser P)
  : (option (exn V) * list (browser P)) * browser P :=
  let (r, b') := exec body b in ((r, visited body b), b').

(** [do_login] with its body under observation: the guard is the one of
    [do_login], and the states are those its body goes through under it. *)
Definition do_login_observed
  : browser P -> (option (exn V) * list (browser P)) * browser P :=
  no_need_login (exec_observed do_login_body).

(** ** Notions for any schedule *)

(** [same_or_agree sent new]: [new] is the record [sent] itself, or one the
    comparison of the replay accepts for it. *)
Definition same_or_agree (sent new : V) : Prop := sent = new \/ agree sent new.

(** ** [get_account] *)

(** [a.id] *)
Variable get_id : V -> string.

(** The loop of [get_account] over what [self.get_accounts_list(False)]
    returned:
<<
      for a in self.get_accounts_list(False):
          if a.id == id:
              return a
      return None
>>
    with [Return None] for [return None]; the first component is [None]
    when the fuel ran out. *)
Fixpoint get_account_loop (fuel : nat) (id : string) (s : iter_retry V)
  : option (outcome V (option V)) * iter_retry V :=
  match fuel with
  | O => (None, s)
  | S fuel' =>
      match __next__ s with
      | (Return a, s') =>
          if String.eqb (get_id a) id then (Some (Return (Some a)), s')
          else get_account_loop fuel' id s'
      | (Raise e, s') =>
          if is_StopIteration e then (Some (Return None), s')
          else (Some (Raise e), s')
      end
  end.

(** The body of [get_account], with [cb] the invocations of the generator
    [get_accounts_list], which [retry] decorates with its default [tries]:
    the result and the number of invocations made. A value that is not an
    iterator cannot be iterated. *)
Definition get_account (id : string) (fuel : nat)
  : option (outcome V (option V)) * nat :=
  match wrapper default_tries with
  | (Raise e, calls) => (Some (Raise e), calls)
  | (Return (Simple _), calls) => (Some (Raise TypeError), calls)
  | (Return (Resumable s), _) =>
      let (res, s') := get_account_loop fuel id s in (res, cb_calls s')
  end.

(** ** [go_on_accounts_list] *)

(** [class BrokenPageError(Exception)], raised with 'Unable to go on the
    accounts list page'. *)
Definition BrokenPageError : exn V := OtherException "BrokenPageError".

(** The site, as [go_on_accounts_list] uses it. [start_task base t] is
    [self.location] on the [StartTask.do] address made of the task [t] and
    of [self.token], absolute ([base = true], the first request) or
    relative (the request after a popup). [page_is_error], [page_pop_up]
    and [page_is_short_list] are the methods of [self.page];
    [submit_complete_list] fills and submits the form that asks for the
    complete list. *)
Variable start_task :
  bool -> string -> browser P -> option (exn V) * browser P.
Variable page_is_error : browser P -> bool.
Variable page_pop_up : browser P -> bool.
Variable page_is_short_list : browser P -> bool.
Variable submit_complete_list : browser P -> option (exn V) * browser P.

(** The [for taskInfoOID in self.ACCOUNT_URLS: ... else: raise] loop. *)
Fixpoint try_account_urls (candidates : list string) (b : accounts_browser P)
  : option (exn V) * accounts_browser P :=
  match candidates with
  | [] => (Some BrokenPageError, b)
  | taskInfoOID :: rest =>
      match start_task true taskInfoOID (session b) with
      | (Some e, p) => (Some e, mk_accounts_browser (ACCOUNT_URLS b) p)
      | (None, p) =>
          if negb (page_is_error p) then
            if page_pop_up p then
              match start_task false taskInfoOID p with
              | (Some e, p') =>
                  (Some e, mk_accounts_browser (ACCOUNT_URLS b) p')
              | (None, p') => (None, mk_accounts_browser [taskInfoOID] p')
              end
            else (None, mk_accounts_browser [taskInfoOID] p)
          else try_account_urls rest (mk_accounts_browser (ACCOUNT_URLS b) p)
      end
  end.

Definition go_on_accounts_list (b : accounts_browser P)
  : option (exn V) * accounts_browser P :=
  match try_account_urls (ACCOUNT_URLS b) b with
  | (Some e, b') => (Some e, b')
  | (None, b') =>
      if page_is_short_list (session b') then
        let (r, p) := submit_complete_list (session b') in
        (r, mk_accounts_browser (ACCOUNT_URLS b') p)
      else (None, b')
  end.

(** ** [get_invest_history] *)

(** [item.date] *)
Variable tr_date : V -> date.

(** [l.sort(reverse=True, key=key)]: by decreasing key, records with equal
    keys staying in the order they had. [ltb] is [<] on the keys. *)
Fixpoint insert_desc (K A : Type) (ltb : K -> K -> bool) (key : A -> K)
    (x : A) (l : list A) : list A :=
  match l with
  | [] => [x]
  | y :: l' =>
      if ltb (key x) (key y) then y :: insert_desc ltb key x l'
      else x :: y :: l'
  end.

Fixpoint sort_desc (K A : Type) (ltb : K -> K -> bool) (key : A -> K)
    (l : list A) : list A :=
  match l with
  | [] => []
  | x :: l' => insert_desc ltb key x (sort_desc ltb key l')
  end.

(** [isinstance(exc, HTTPNotFound)] *)
Definition is_HTTPNotFound (e : exn V) : bool :=
  match e with
  | OtherException name => String.eqb name "HTTPNotFound"
  | _ => false
  end.

(** [for year in years: try ... except HTTPNotFound ... else ...], as the
    script of the generator. *)
Fixpoint history_by_year (pdf : Z -> pdf_result V) (items_from_json : list V)
    (years : list Z) : list (event V) :=
  match years with
  | [] => []
  | y :: rest =>
      match pdf y with
      | PdfGoRaises e =>
          if is_HTTPNotFound e then
            map (@EvYield V)
                (filter (fun tr => year (tr_date tr) =? y) items_from_json)
            ++ history_by_year pdf items_from_json rest
          else [EvRaise e]
      | PdfHistory (Raise e) => [EvRaise e]
      | PdfHistory (Return history) =>
          map (@EvYield V) (sort_desc date_ltb tr_date history)
          ++ history_by_year pdf items_from_json rest
      end
  end.

(** The generator [get_invest_history], as the script of what it yields
    and raises. [go_investments] is what [self.go_investments(account)]
    does ([None] counts as [False]); [etna_is_here] is
    [self.etna.is_here()]; [json] is the request of the JSON history and
    [list(self.page.get_history())]. *)
Definition get_invest_history (go_investments : outcome V bool)
    (etna_is_here : bool) (json : outcome V (list V))
    (pdf : Z -> pdf_result V) : list (event V) :=
  match go_investments with
  | Raise e => [EvRaise e]
  | Return false => []
  | Return true =>
      if etna_is_here then
        match json with
        | Raise e => [EvRaise e]
        | Return history =>
            let items_from_json := sort_desc date_ltb tr_date history in
            let years :=
              sort_desc Z.ltb (fun y : Z => y)
                (nodup Z.eq_dec
                   (map (fun item => year (tr_date item)) items_from_json)) in
            history_by_year pdf items_from_json years
        end
      else []
  end.

(** [isinstance(exc, Exception)], the default [exc_check] of
    [iter_retry]: every exception here is one. *)
Definition is_Exception (e : exn V) : bool := true.

(** ** [get_iban_number] and [get_accounts_list] *)

(** The site, as the two methods use it. [iban_task] is the request of
    the [cyberIBAN] task; [type_without_iban account] is
    [account.type in [Account.TYPE_LIFE_INSURANCE, Account.TYPE_MARKET]];
    [page_need_to_go], [page_go_iban] and [page_get_iban] are the methods
    of the IBAN page; an IBAN is [None] for [NotAvailable];
    [set_iban a i] is [a] after [a.iban = i]. *)
Variable iban_task : browser P -> option (exn V) * browser P.
Variable type_without_iban : V -> bool.
Variable page_need_to_go : browser P -> bool.
Variable page_go_iban : V -> browser P -> outcome V bool * browser P.
Variable page_get_iban :
  V -> browser P -> outcome V (option string) * browser P.
Variable set_iban : V -> option string -> V.

Definition get_iban_number (account : V) (p : browser P)
  : outcome V (option string) * browser P :=
  match iban_task p with
  | (Some e, p1) => (Raise e, p1)
  | (None, p1) =>
      if type_without_iban account then (Return None, p1)
      else if page_need_to_go p1 then
        match page_go_iban account p1 with
        | (Raise e, p2) => (Raise e, p2)
        | (Return false, p2) => (Return None, p2)
        | (Return true, p2) => page_get_iban account p2
        end
      else page_get_iban account p1
  end.

(** The pages of the list. [N] is the type of the entries of
    [next_pages]. [page_iter_accounts p] is what iterating
    [self.page.iter_accounts(next_pages)] gives on the page of [p]: the
    accounts, the exception that stops it if any, and the entries it has
    appended to [next_pages]. [prev_action next_page] is the value at
    ['prevAction'] when the key is there; [continue_prev_action] and
    [continue_task] are the two [ContinueTask.do] requests. *)
Variable N : Type.
Variable page_iter_accounts : browser P -> list V * option (exn V) * list N.
Variable accounts_full_page_is_here : browser P -> bool.
Variable prev_action : N -> option string.
Variable continue_prev_action :
  string -> browser P -> option (exn V) * browser P.
Variable continue_task : N -> browser P -> option (exn V) * browser P.

(** [next_pages.pop()]: the last entry and the list without it. *)
Definition pop_last (next_pages : list N) : option (N * list N) :=
  match rev next_pages with
  | [] => None
  | next_page :: others => Some (next_page, rev others)
  end.

(** The requests of one turn of [while len(next_pages) > 0]. *)
Definition go_to_next_page (next_page : N) (b : accounts_browser P)
  : option (exn V) * accounts_browser P :=
  match (if accounts_full_page_is_here (session b) then (None, b)
         else go_on_accounts_list b) with
  | (Some e, b1) => (Some e, b1)
  | (None, b1) =>
      match (match prev_action next_page with
             | Some action => continue_prev_action action (session b1)
             | None => (None, session b1)
             end) with
      | (Some e, p2) => (Some e, mk_accounts_browser (ACCOUNT_URLS b1) p2)
      | (None, p2) =>
          let (r, p3) := continue_task next_page p2 in
          (r, mk_accounts_browser (ACCOUNT_URLS b1) p3)
      end
  end.

(** The [while] loop: what is yielded, the exception that stops the
    generator if any, the list [accounts] and the browser. [None] when the
    fuel ran out. *)
Fixpoint visit_next_pages (fuel : nat) (get_iban : bool)
    (next_pages : list N) (accounts : list V) (b : accounts_browser P)
  : option (list (event V) * option (exn V) * list V * accounts_browser P) :=
  match pop_last next_pages with
  | None => Some ([], None, accounts, b)
  | Some (next_page, next_pages') =>
      match fuel with
      | O => None
      | S fuel' =>
          match go_to_next_page next_page b with
          | (Some e, b1) => Some ([], Some e, accounts, b1)
          | (None, b1) =>
              let '(accs, err, pushed) := page_iter_accounts (session b1) in
              let yields := if get_iban then [] else map (@EvYield V) accs in
              let accounts' := if get_iban then accounts ++ accs else accounts in
              match err with
              | Some e => Some (yields, Some e, accounts', b1)
              | None =>
                  match visit_next_pages fuel' get_iban
                          (next_pages' ++ pushed) accounts' b1 with
                  | None => None
                  | Some (script, r, accounts'', b2) =>
                      Some (yields ++ script, r, accounts'', b2)
                  end
              end
          end
      end
  end.

(** [for a in accounts: a.iban = self.get_iban_number(a); yield a] *)
Fixpoint yield_with_iban (accounts : list V) (p : browser P)
  : list (event V) :=
  match accounts with
  | [] => []
  | a :: rest =>
      match get_iban_number a p with
      | (Raise e, _) => [EvRaise e]
      | (Return iban, p') => EvYield (set_iban a iban) :: yield_with_iban rest p'
      end
  end.

(** The generator [get_accounts_list], as the script of what it yields
    and raises ([None] when the fuel ran out). *)
Definition get_accounts_list (fuel : nat) (get_iban : bool)
    (b : accounts_browser P) : option (list (event V)) :=
  match go_on_accounts_list b with
  | (Some e, _) => Some [EvRaise e]
  | (None, b1) =>
      let '(accs, err, pushed) := page_iter_accounts (session b1) in
      let yields := if get_iban then [] else map (@EvYield V) accs in
      let accounts := if get_iban then accs else [] in
      match err with
      | Some e => Some (yields ++ [EvRaise e])
      | None =>
          match visit_next_pages fuel get_iban pushed accounts b1 with
          | None => None
          | Some (script, Some e, _, _) => Some (yields ++ script ++ [EvRaise e])
          | Some (script, None, accounts', b2) =>
              if get_iban then
                Some (yields ++ script ++ yield_with_iban accounts' (session b2))
              else Some (yields ++ script)
          end
      end
  end.

(** ** Equations of [__next__] *)

Lemma return_one_item_ext (f g : iter_retry V -> outcome V V * iter_retry V) s :
  (forall s', remaining s' = remaining s - 1 -> f s' = g s') ->
  return_one_item f s = return_one_item g s.
Proof.
  intros H. unfold return_one_item.
  destruct (py_next (it s)) as [[obj|e] o']; [reflexivity|].
  destruct (exc_check e); [|reflexivity].
  apply H. reflexivity.
Qed.

Lemma next_body_ext (f g : iter_retry V -> outcome V V * iter_retry V) s :
  (forall s', remaining s' = remaining s - 1 -> f s' = g s') ->
  next_body f s = next_body g s.
Proof.
  intros H. unfold next_body.
  destruct (is_None (it s)); [|now apply return_one_item_ext].
  destruct (cb (cb_calls s)) as [o|e]; [|reflexivity].
  cbv zeta.
  destruct (replay _ _ _) as [[[e nb]|] o'].
  - destruct (is_StopIteration e); [reflexivity|].
    destruct (exc_check e); [|reflexivity].
    apply H. reflexivity.
  - apply return_one_item_ext. exact H.
Qed.

Lemma next_rec_fuel fuel1 : forall fuel2 s,
  (Z.to_nat (remaining s) <= fuel1)%nat ->
  (Z.to_nat (remaining s) <= fuel2)%nat ->
  next_rec fuel1 s = next_rec fuel2 s.
Proof.
  induction fuel1 as [|fuel1 IH]; intros [|fuel2] s H1 H2; simpl;
    destruct (remaining s <=? 0) eqn:E; try reflexivity;
    apply Z.leb_gt in E; try lia.
  f_equal. apply next_body_ext. intros s' Hs'.
  rewrite (IH fuel2) by lia. reflexivity.
Qed.

(** The fuel [__next__] gives is enough: [next_rec] has a result, and more
    fuel does not change it. *)
Lemma next_rec_enough fuel s :
  (Z.to_nat (remaining s) <= fuel)%nat ->
  next_rec fuel s = Some (__next__ s).
Proof.
  intros Hf. rewrite (@next_rec_fuel fuel (Z.to_nat (remaining s))) by lia.
  unfold __next__.
  destruct (Z.to_nat (remaining s)) as [|n] eqn:En; simpl;
    destruct (remaining s <=? 0) eqn:E; try reflexivity.
  apply Z.leb_gt in E. lia.
Qed.

(** [__next__] as the source writes it. *)
Lemma next_eq s :
  __next__ s =
  if remaining s <=? 0 then (Raise (BrowserUnavailable DidNotReply), s)
  else next_body __next__ s.
Proof.
  unfold __next__ at 1.
  destruct (Z.to_nat (remaining s)) as [|n] eqn:En; simpl;
    destruct (remaining s <=? 0) eqn:E; try reflexivity.
  - apply Z.leb_gt in E. lia.
  - apply next_body_ext. intros s' Hs'.
    rewrite next_rec_enough by lia. reflexivity.
Qed.

Lemma next_exhausted s :
  remaining s <= 0 ->
  __next__ s = (Raise (BrowserUnavailable DidNotReply), s).
Proof.
  intros H. rewrite next_eq.
  destruct (remaining s <=? 0) eqn:E; [reflexivity|].
  apply Z.leb_gt in E. lia.
Qed.

Lemma next_running s :
  0 < remaining s -> __next__ s = next_body __next__ s.
Proof.
  intros H. rewrite next_eq.
  destruct (remaining s <=? 0) eqn:E; [|reflexivity].
  apply Z.leb_le in E. lia.
Qed.

(** With an iterator in hand, [__next__] goes to "return one item". *)
Lemma next_with_iterator s :
  0 < remaining s -> is_None (it s) = false ->
  __next__ s = return_one_item __next__ s.
Proof.
  intros Hr Hn. rewrite next_running by assumption.
  unfold next_body. rewrite Hn. reflexivity.
Qed.

(** ** The replay loop on a script *)

Lemma replay_agree (pre pre' : list V) :
  Forall2 agree pre pre' ->
  forall nb post k,
    replay nb (pre ++ post) (PyIter (map (@EvYield V) pre' ++ k)) =
    replay (nb + List.length pre) post (PyIter k).
Proof.
  induction 1 as [|sent new pre pre' Hx _ IH]; intros nb post k; simpl.
  - f_equal. lia.
  - rewrite Hx. rewrite IH. f_equal. lia.
Qed.

Lemma replay_all (pre pre' : list V) nb k :
  Forall2 agree pre pre' ->
  replay nb pre (PyIter (map (@EvYield V) pre' ++ k)) = (None, PyIter k).
Proof.
  intros H. rewrite <- (app_nil_r pre) at 1.
  rewrite replay_agree by assumption. reflexivity.
Qed.

Lemma Forall2_agree_refl (l : list V) :
  (forall x, In x l -> agree x x) -> Forall2 agree l l.
Proof.
  induction l as [|x l IH]; intros H; constructor.
  - apply H. now left.
  - apply IH. intros y Hy. apply H. now right.
Qed.

(** ** The consumer, step by step *)

Lemma drains_raise s e s' :
  __next__ s = (Raise e, s') -> drains s [] e s'.
Proof.
  intros H [|fuel] Hf; simpl in *; [lia|]. rewrite H. reflexivity.
Qed.

Lemma drains_return s obj s1 objs e s' :
  __next__ s = (Return obj, s1) -> drains s1 objs e s' ->
  drains s (obj :: objs) e s'.
Proof.
  intros H Hd [|fuel] Hf; simpl in *; [lia|].
  rewrite H, Hd by lia. reflexivity.
Qed.

Lemma drains_same_next s s1 objs e s' :
  __next__ s = __next__ s1 -> drains s1 objs e s' -> drains s objs e s'.
Proof.
  intros H Hd [|fuel] Hf; [lia|].
  specialize (Hd (S fuel) Hf). simpl in *. rewrite H. exact Hd.
Qed.

(** Records at the head of the iterator in hand go to the consumer. *)
Lemma drains_yields (ys : list V) : forall k its r c objs e s',
  0 < r ->
  drains (mk_iter_retry (PyIter k) (its ++ ys) r c) objs e s' ->
  drains (mk_iter_retry (PyIter (map (@EvYield V) ys ++ k)) its r c)
         (ys ++ objs) e s'.
Proof.
  induction ys as [|y ys IH]; intros k its r c objs e s' Hr Hd; simpl.
  - rewrite app_nil_r in Hd. exact Hd.
  - eapply drains_return.
    + rewrite next_with_iterator by (simpl; auto). reflexivity.
    + simpl. apply IH; [assumption|].
      rewrite <- app_assoc. exact Hd.
Qed.

(** A transient exception from the iterator in hand: the iterator is
    dropped, one unit of budget is spent and [__next__] starts again. *)
Lemma next_transient e k its r c :
  0 < r -> exc_check e = true ->
  __next__ (mk_iter_retry (PyIter (EvRaise e :: k)) its r c) =
  __next__ (mk_iter_retry PyNone its (r - 1) c).
Proof.
  intros Hr He. rewrite next_with_iterator by (simpl; auto).
  unfold return_one_item. simpl. rewrite He. reflexivity.
Qed.

(** The end of the iterator in hand ends the sequence, when
    [StopIteration] is not of the class [exc_check]. *)
Lemma next_stop its r c :
  0 < r -> exc_check StopIteration = false ->
  __next__ (mk_iter_retry (PyIter []) its r c) =
  (Raise StopIteration, mk_iter_retry (PyIter []) its r c).
Proof.
  intros Hr He. rewrite next_with_iterator by (simpl; auto).
  unfold return_one_item. simpl. rewrite He. reflexivity.
Qed.

(** Recreation: [cb] returns a new iterator whose first records agree
    with all the items sent; [__next__] goes on as with that iterator in
    hand, after them. *)
Lemma next_recreated its its' k r c :
  0 < r -> cb c = CallReturn (PyIter (map (@EvYield V) its' ++ k)) ->
  Forall2 agree its its' ->
  __next__ (mk_iter_retry PyNone its r c) =
  __next__ (mk_iter_retry (PyIter k) its r (S c)).
Proof.
  intros Hr Hcb Hag.
  rewrite next_running by (simpl; auto).
  rewrite (@next_with_iterator (mk_iter_retry (PyIter k) _ _ _))
    by (simpl; auto).
  unfold next_body. simpl. rewrite Hcb. simpl.
  rewrite replay_all by assumption. reflexivity.
Qed.

(** The invocation that recreates the iterator is outside the [try]:
    whatever it raises, of the class [exc_check] or not, goes to the caller
    with the budget untouched. *)
Lemma next_recreation_raises e its r c :
  0 < r -> cb c = CallRaise e ->
  __next__ (mk_iter_retry PyNone its r c) =
  (Raise e, mk_iter_retry PyNone its r (S c)).
Proof.
  intros Hr Hcb. rewrite next_running by (simpl; auto).
  unfold next_body. simpl. rewrite Hcb. reflexivity.
Qed.

(** A recreated iterator that raises [e] before it has given all the
    items sent again. *)
Lemma replay_raise (pre pre' : list V) sent post e k :
  Forall2 agree pre pre' ->
  replay 0 (pre ++ sent :: post)
         (PyIter (map (@EvYield V) pre' ++ EvRaise e :: k)) =
  (Some (e, List.length pre), PyIter k).
Proof.
  intros H. rewrite replay_agree by assumption. reflexivity.
Qed.

Lemma next_replay_transient pre pre' sent post e k r c :
  0 < r ->
  cb c = CallReturn (PyIter (map (@EvYield V) pre' ++ EvRaise e :: k)) ->
  Forall2 agree pre pre' ->
  exc_check e = true -> is_StopIteration e = false ->
  __next__ (mk_iter_retry PyNone (pre ++ sent :: post) r c) =
  __next__ (mk_iter_retry PyNone (pre ++ sent :: post) (r - 1) (S c)).
Proof.
  intros Hr Hcb Hag He Hs.
  rewrite next_running by (simpl; auto).
  unfold next_body. simpl. rewrite Hcb. simpl.
  rewrite replay_raise by assumption. rewrite Hs, He. reflexivity.
Qed.

Lemma skipn_firstn_skipn (n n' : nat) (l : list V) :
  (n <= n')%nat -> skipn n (firstn n' l) ++ skipn n' l = skipn n l.
Proof.
  intros H. destruct (Nat.le_gt_cases n' (List.length l)) as [Hl|Hl].
  - rewrite <- (firstn_skipn n' l) at 3. rewrite skipn_app.
    rewrite length_firstn.
    replace (n - Nat.min n' (List.length l))%nat with O by lia.
    reflexivity.
  - rewrite firstn_all2 by lia.
    rewrite (skipn_all2 (n := n') l) by lia. apply app_nil_r.
Qed.

Lemma firstn_split_le (n n' : nat) (l : list V) :
  (n <= n')%nat -> firstn n' l = firstn n l ++ skipn n (firstn n' l).
Proof.
  intros H. rewrite <- (firstn_skipn n (firstn n' l)) at 1.
  rewrite firstn_firstn. now rewrite Nat.min_l by lia.
Qed.

Lemma firstn_split_lt (cut n : nat) (l : list V) :
  (cut < n)%nat -> (n <= List.length l)%nat ->
  exists sent post, firstn n l = firstn cut l ++ sent :: post.
Proof.
  intros H Hl. rewrite (@firstn_split_le cut n l) by lia.
  destruct (skipn cut (firstn n l)) as [|sent post] eqn:E.
  - apply (f_equal (@List.length V)) in E.
    rewrite length_skipn, length_firstn in E. simpl in E. lia.
  - now exists sent, post.
Qed.

Section Deterministic.

Variable xs : list V.
Hypothesis xs_agree : forall x, In x xs -> agree x x.

Lemma prefix_agree n : Forall2 agree (firstn n xs) (firstn n xs).
Proof.
  apply Forall2_agree_refl. intros x Hx. apply xs_agree.
  rewrite <- (firstn_skipn n xs). apply in_or_app. now left.
Qed.

(** One failed attempt, from the point where the iterator has been
    dropped: the consumer gets the records up to the failure that it
    did not have yet, then the next attempt starts with one unit of
    budget less. *)
Lemma failed_attempt n r c :
  0 < r -> (n <= List.length xs)%nat ->
  transient_attempt xs (cb c) ->
  exists n', (n <= n' <= List.length xs)%nat /\
    forall objs e s',
      drains (mk_iter_retry PyNone (firstn n' xs) (r - 1) (S c)) objs e s' ->
      drains (mk_iter_retry PyNone (firstn n xs) r c)
             (skipn n (firstn n' xs) ++ objs) e s'.
Proof.
  intros Hr Hn (cut & e & k & Hcut & Hcb & He & Hs).
  unfold fails_after in Hcb.
  destruct (Nat.le_gt_cases n cut) as [Hle|Hlt].
  - exists cut. split; [lia|]. intros objs e' s' Hd.
    eapply drains_same_next.
    + apply next_recreated with
        (its' := firstn n xs)
        (k := map (@EvYield V) (skipn n (firstn cut xs)) ++ EvRaise e :: k);
        [assumption| |apply prefix_agree].
      rewrite Hcb. rewrite app_assoc, <- map_app.
      now rewrite <- firstn_split_le.
    + apply drains_yields; [assumption|].
      rewrite <- firstn_split_le by assumption.
      eapply drains_same_next; [|exact Hd].
      now apply next_transient.
  - exists n. split; [lia|]. intros objs e' s' Hd.
    replace (skipn n (firstn n xs)) with (@nil V)
      by (symmetry; apply skipn_all2; rewrite length_firstn; lia).
    simpl.
    destruct (@firstn_split_lt cut n xs Hlt Hn) as (sent & post & Hsp).
    eapply drains_same_next; [|exact Hd].
    rewrite Hsp.
    apply next_replay_transient with (pre' := firstn cut xs) (e := e) (k := k);
      auto using prefix_agree.
Qed.

(** After [m] failed attempts, a complete one: the consumer gets what
    it did not have yet of [xs], and the sequence ends. *)
Lemma recovers (m : nat) : forall n r c,
  Z.of_nat m < r -> (n <= List.length xs)%nat ->
  exc_check StopIteration = false ->
  (forall j, (j < m)%nat -> transient_attempt xs (cb (c + j))) ->
  cb (c + m) = CallReturn (producer xs) ->
  exists s',
    drains (mk_iter_retry PyNone (firstn n xs) r c)
           (skipn n xs) StopIteration s' /\
    items s' = xs /\ cb_calls s' = (c + m + 1)%nat /\
    remaining s' = r - Z.of_nat m.
Proof.
  induction m as [|m IH]; intros n r c Hr Hn Hstop Hfail Hok.
  - rewrite Nat.add_0_r in Hok. unfold producer in Hok.
    eexists. split; [|split; [|split]].
    + eapply drains_same_next.
      * apply next_recreated with
          (its' := firstn n xs) (k := map (@EvYield V) (skipn n xs) ++ []);
          [lia| |apply prefix_agree].
        rewrite Hok, app_nil_r, <- map_app. now rewrite firstn_skipn.
      * rewrite <- (app_nil_r (skipn n xs)) at 2.
        apply drains_yields; [lia|].
        apply drains_raise. apply next_stop; [lia|assumption].
    + simpl. apply firstn_skipn.
    + simpl. lia.
    + simpl. lia.
  - destruct (@failed_attempt n r c) as (n' & Hn' & Hstep);
      [lia|assumption| |].
    { rewrite <- (Nat.add_0_r c). apply Hfail. lia. }
    destruct (IH n' (r - 1) (S c)) as (s' & Hd & Hi & Hc & Hrem);
      [lia|lia|assumption| | |].
    { intros j Hj. replace (S c + j)%nat with (c + S j)%nat by lia.
      apply Hfail. lia. }
    { replace (S c + m)%nat with (c + S m)%nat by lia. exact Hok. }
    exists s'. split; [|split; [|split]]; [|assumption|lia|lia].
    rewrite <- (@skipn_firstn_skipn n n' xs) by lia.
    apply Hstep. exact Hd.
Qed.

(** Every attempt fails: the budget runs out, and the consumer has got
    records of [xs], in order, up to some point. *)
Lemma exhausts (m : nat) : forall n c,
  (n <= List.length xs)%nat ->
  (forall j, (j < m)%nat -> transient_attempt xs (cb (c + j))) ->
  exists n' s',
    (n <= n' <= List.length xs)%nat /\
    drains (mk_iter_retry PyNone (firstn n xs) (Z.of_nat m) c)
           (skipn n (firstn n' xs)) (BrowserUnavailable DidNotReply) s' /\
    items s' = firstn n' xs /\ cb_calls s' = (c + m)%nat.
Proof.
  induction m as [|m IH]; intros n c Hn Hfail.
  - exists n. eexists. split; [lia|]. split; [|split].
    + replace (skipn n (firstn n xs)) with (@nil V)
        by (symmetry; apply skipn_all2; rewrite length_firstn; lia).
      apply drains_raise. apply next_exhausted. simpl. lia.
    + reflexivity.
    + simpl. lia.
  - destruct (@failed_attempt n (Z.of_nat (S m)) c) as (n1 & Hn1 & Hstep);
      [lia|assumption| |].
    { rewrite <- (Nat.add_0_r c). apply Hfail. lia. }
    destruct (IH n1 (S c)) as (n' & s' & Hn' & Hd & Hi & Hc); [lia| |].
    { intros j Hj. replace (S c + j)%nat with (c + S j)%nat by lia.
      apply Hfail. lia. }
    exists n', s'. split; [lia|]. split; [|split]; [|assumption|lia].
    replace (skipn n (firstn n' xs))
      with (skipn n (firstn n1 (firstn n' xs)) ++ skipn n1 (firstn n' xs))
      by (apply skipn_firstn_skipn; lia).
    rewrite firstn_firstn, Nat.min_l by lia.
    apply Hstep.
    replace (Z.of_nat (S m) - 1) with (Z.of_nat m) by lia. exact Hd.
Qed.

End Deterministic.

(** ** The loop of the wrapper *)

Lemma wrapper_loop_retries (k : nat) : forall n c,
  (forall j, (j < k)%nat -> transient_call (cb (c + j))) ->
  wrapper_loop (k + n) c = wrapper_loop n (c + k).
Proof.
  induction k as [|k IH]; intros n c H; simpl.
  - now rewrite Nat.add_0_r.
  - destruct (H O) as (e & Hcb & He); [lia|].
    rewrite Nat.add_0_r in Hcb. rewrite Hcb, He.
    rewrite IH.
    + f_equal. lia.
    + intros j Hj. replace (S c + j)%nat with (c + S j)%nat by lia.
      apply H. lia.
Qed.

Lemma wrapper_after (k : nat) (tries : Z) :
  Z.of_nat k < tries ->
  (forall j, (j < k)%nat -> transient_call (cb j)) ->
  wrapper tries = wrapper_loop (S (Z.to_nat (tries - Z.of_nat k - 1))) k.
Proof.
  intros Hk H. unfold wrapper.
  replace (Z.to_nat tries)
    with (k + S (Z.to_nat (tries - Z.of_nat k - 1)))%nat by lia.
  now rewrite wrapper_loop_retries.
Qed.

Lemma wrapper_resumable (k : nat) (tries : Z) (ret : pyobj V) :
  Z.of_nat k < tries ->
  (forall j, (j < k)%nat -> transient_call (cb j)) ->
  cb k = CallReturn ret -> has_iter ret = true ->
  wrapper tries =
  (Return (Resumable (mk_iter_retry ret [] (tries - Z.of_nat k) (S k))), S k).
Proof.
  intros Hk H Hcb Hit. rewrite (@wrapper_after k) by assumption.
  simpl. rewrite Hcb, Hit. simpl. unfold __init__. repeat f_equal. lia.
Qed.

Lemma wrapper_simple (k : nat) (tries : Z) (ret : pyobj V) :
  Z.of_nat k < tries ->
  (forall j, (j < k)%nat -> transient_call (cb j)) ->
  cb k = CallReturn ret -> has_iter ret = false ->
  wrapper tries = (Return (Simple ret), S k).
Proof.
  intros Hk H Hcb Hit. rewrite (@wrapper_after k) by assumption.
  simpl. rewrite Hcb, Hit. reflexivity.
Qed.

Lemma wrapper_propagates (k : nat) (tries : Z) (e : exn V) :
  Z.of_nat k < tries ->
  (forall j, (j < k)%nat -> transient_call (cb j)) ->
  cb k = CallRaise e -> exc_check e = false ->
  wrapper tries = (Raise e, S k).
Proof.
  intros Hk H Hcb He. rewrite (@wrapper_after k) by assumption.
  simpl. rewrite Hcb, He. reflexivity.
Qed.

Lemma wrapper_exhausted (tries : Z) :
  (forall j, (j < Z.to_nat tries)%nat -> transient_call (cb j)) ->
  wrapper tries = (Raise (BrowserUnavailable DidNotReply), Z.to_nat tries).
Proof.
  intros H. unfold wrapper.
  rewrite <- (Nat.add_0_r (Z.to_nat tries)) at 1.
  now rewrite wrapper_loop_retries.
Qed.

(** The iterator the wrapper hands to [iter_retry] behaves as if it had
    just been recreated with nothing sent yet. *)
Lemma drains_first_iterator script r c objs e s' :
  0 < r -> cb c = CallReturn (PyIter script) ->
  drains (mk_iter_retry PyNone [] r c) objs e s' ->
  drains (mk_iter_retry (PyIter script) [] r (S c)) objs e s'.
Proof.
  intros Hr Hcb Hd. eapply drains_same_next; [|exact Hd].
  symmetry. apply next_recreated with (its' := []); auto.
Qed.

Lemma call_and_iterate_resumable tries s objs e s' calls fuel :
  wrapper tries = (Return (Resumable s), calls) ->
  drains s objs e s' -> (List.length objs < fuel)%nat ->
  call_and_iterate tries fuel = GotRecords objs (Some e) (cb_calls s').
Proof.
  intros Hw Hd Hf. unfold call_and_iterate. rewrite Hw.
  rewrite (Hd fuel Hf). reflexivity.
Qed.

Lemma recreations_resumable tries s objs e s' calls fuel :
  wrapper tries = (Return (Resumable s), calls) ->
  drains s objs e s' -> (List.length objs < fuel)%nat ->
  recreations tries fuel = (cb_calls s' - calls)%nat.
Proof.
  intros Hw Hd Hf. unfold recreations. rewrite Hw.
  rewrite (Hd fuel Hf). reflexivity.
Qed.

(** ** Properties of the retry machinery *)

(** C1. No duplication, no reordering. The decorated function produces the
    records [xs]; its first [k] invocations raise a transient exception,
    the next [m] return the producer with a transient failure injected at
    an arbitrary point (during the first pass or during a replay), and the
    one after is complete, with [k + m] smaller than the budget [tries].
    Then the consumer gets exactly [xs]: each record once, in the order of
    the producer, and the sequence ends normally, after [k + m + 1]
    invocations. Records given again by a recreated producer are accepted
    by the comparison of the replay, and [StopIteration] is not of the
    class that is retried. *)
Theorem no_duplication_in_order (xs : list V) (tries : Z) (k m : nat) :
  (forall x, In x xs -> agree x x) ->
  exc_check StopIteration = false ->
  Z.of_nat (k + m) < tries ->
  (forall j, (j < k)%nat -> transient_call (cb j)) ->
  (forall j, (j < m)%nat -> transient_attempt xs (cb (k + j))) ->
  cb (k + m) = CallReturn (producer xs) ->
  forall fuel, (List.length xs < fuel)%nat ->
    call_and_iterate tries fuel =
    GotRecords xs (Some StopIteration) (k + m + 1).
Proof.
  intros Hag Hstop Hbudget Hcalls Hfail Hok fuel Hfuel.
  destruct (@recovers xs Hag m 0%nat (tries - Z.of_nat k) k)
    as (s' & Hd & _ & Hc & _); [lia|lia|assumption..|].
  assert (Hfirst : exists script, cb k = CallReturn (PyIter script)).
  { destruct m as [|m].
    - rewrite Nat.add_0_r in Hok. unfold producer in Hok. eauto.
    - destruct (Hfail O) as (cut & e & kk & _ & Hcb & _); [lia|].
      rewrite Nat.add_0_r in Hcb. unfold fails_after in Hcb. eauto. }
  destruct Hfirst as (script & Hcb).
  rewrite <- Hc.
  eapply call_and_iterate_resumable; [| |exact Hfuel].
  - apply wrapper_resumable with (k := k); [lia|assumption|exact Hcb|reflexivity].
  - apply drains_first_iterator; [lia|assumption|exact Hd].
Qed.

(** C4, amended. Budget exhaustion. Every attempt fails with a transient
    exception: the first [k] invocations in the call made by the wrapper,
    all the later ones while the producer of [xs] is iterated (each
    invocation that recreates the producer returns it). Then the caller
    gets the exception 'Site did not reply successfully after multiple
    tries' once the function has been invoked exactly [tries] times in
    all: the [k] failed calls, the invocation that creates the producer
    for the wrapper and [tries - k - 1] recreations by the iterator (none
    when the [tries] calls of the wrapper all fail). What the consumer
    got before is a prefix of [xs]. *)
Theorem budget_exhaustion (xs : list V) (tries : Z) (k : nat) :
  (forall x, In x xs -> agree x x) ->
  (forall j, (j < k)%nat -> transient_call (cb j)) ->
  (forall j, (k <= j < Z.to_nat tries)%nat -> transient_attempt xs (cb j)) ->
  exists n, (n <= List.length xs)%nat /\
    forall fuel, (n < fuel)%nat ->
      call_and_iterate tries fuel =
      GotRecords (firstn n xs) (Some (BrowserUnavailable DidNotReply))
                 (Z.to_nat tries) /\
      recreations tries fuel = (Z.to_nat tries - S k)%nat.
Proof.
  intros Hag Hcalls Hfail.
  destruct (Nat.le_gt_cases (Z.to_nat tries) k) as [Hk|Hk].
  - exists O. split; [lia|]. intros fuel _.
    unfold call_and_iterate, recreations. rewrite wrapper_exhausted.
    + split; [reflexivity|lia].
    + intros j Hj. apply Hcalls. lia.
  - destruct (@exhausts xs Hag (Z.to_nat tries - k) 0%nat k)
      as (n & s' & Hn & Hd & _ & Hc); [lia| |].
    { intros j Hj. apply Hfail. lia. }
    exists n. split; [lia|]. intros fuel Hfuel.
    destruct (Hfail k) as (cut & e & kk & _ & Hcb & _); [lia|].
    unfold fails_after in Hcb.
    simpl in Hd.
    assert (Hw : wrapper tries =
                 (Return (Resumable
                            (mk_iter_retry
                               (PyIter (map (@EvYield V) (firstn cut xs)
                                        ++ EvRaise e :: kk))
                               [] (tries - Z.of_nat k) (S k))), S k))
      by (apply wrapper_resumable with (k := k);
          [lia|assumption|exact Hcb|reflexivity]).
    assert (Hdr : drains (mk_iter_retry
                            (PyIter (map (@EvYield V) (firstn cut xs)
                                     ++ EvRaise e :: kk))
                            [] (tries - Z.of_nat k) (S k))
                         (firstn n xs) (BrowserUnavailable DidNotReply) s').
    { apply drains_first_iterator; [lia|exact Hcb|].
      replace (tries - Z.of_nat k) with (Z.of_nat (Z.to_nat tries - k)) by lia.
      exact Hd. }
    assert (Hlen : (List.length (firstn n xs) < fuel)%nat)
      by (rewrite length_firstn; lia).
    split.
    + replace (Z.to_nat tries) with (cb_calls s') by lia.
      eapply call_and_iterate_resumable; eassumption.
    + rewrite (@recreations_resumable _ _ _ _ _ _ _ Hw Hdr Hlen). lia.
Qed.

(** C5. A function that returns a simple value, under the default budget
    of 4: when its first three invocations raise a transient exception and
    the fourth returns [ret], the wrapper returns [ret] unchanged; when the
    fourth raises a transient exception too, the wrapper raises 'Site did
    not reply successfully after multiple tries'. Four invocations are
    made in both cases. *)
Theorem single_value_three_failures (ret : pyobj V) :
  (forall j, (j < 3)%nat -> transient_call (cb j)) ->
  (cb 3%nat = CallReturn ret -> has_iter ret = false ->
   forall fuel, call_and_iterate default_tries fuel = GotValue ret 4) /\
  (transient_call (cb 3%nat) ->
   forall fuel,
     call_and_iterate default_tries fuel =
     GotRecords [] (Some (BrowserUnavailable DidNotReply)) 4).
Proof.
  intros H. split.
  - intros Hcb Hit fuel. unfold call_and_iterate.
    rewrite (@wrapper_simple 3%nat default_tries ret); auto.
    unfold default_tries. lia.
  - intros H3 fuel. unfold call_and_iterate.
    rewrite wrapper_exhausted; [reflexivity|].
    intros j Hj. change (Z.to_nat default_tries) with 4%nat in Hj.
    destruct (Nat.eq_dec j 3) as [->|]; [assumption|]. apply H. lia.
Qed.

(** C10. One budget for the calls and for the iteration. When the first
    [k] invocations raise a transient exception and the next returns an
    iterator, [iter_retry] starts with [remaining = tries - k]. From there,
    [m <= tries - k - 1] transient failures while iterating are recovered
    from; when all the [tries - k] attempts left fail while iterating, the
    caller gets 'Site did not reply successfully after multiple tries'. *)
Theorem shared_budget (xs : list V) (tries : Z) (k : nat) :
  (forall x, In x xs -> agree x x) ->
  exc_check StopIteration = false ->
  Z.of_nat k < tries ->
  (forall j, (j < k)%nat -> transient_call (cb j)) ->
  (forall ret, cb k = CallReturn ret -> has_iter ret = true ->
     exists s, fst (wrapper tries) = Return (Resumable s) /\
               remaining s = tries - Z.of_nat k /\
               it s = ret /\ items s = []) /\
  (forall m, Z.of_nat m <= tries - Z.of_nat k - 1 ->
     (forall j, (j < m)%nat -> transient_attempt xs (cb (k + j))) ->
     cb (k + m) = CallReturn (producer xs) ->
     forall fuel, (List.length xs < fuel)%nat ->
       call_and_iterate tries fuel =
       GotRecords xs (Some StopIteration) (k + m + 1)) /\
  ((forall j, (Z.of_nat j < tries - Z.of_nat k) ->
              transient_attempt xs (cb (k + j))) ->
   exists n, (n <= List.length xs)%nat /\
     forall fuel, (n < fuel)%nat ->
       call_and_iterate tries fuel =
       GotRecords (firstn n xs) (Some (BrowserUnavailable DidNotReply))
                  (Z.to_nat tries)).
Proof.
  intros Hag Hstop Hk Hcalls. split; [|split].
  - intros ret Hcb Hit. eexists. split.
    + rewrite (@wrapper_resumable k tries ret) by assumption. reflexivity.
    + simpl. auto.
  - intros m Hm Hfail Hok fuel Hfuel.
    destruct (@recovers xs Hag m 0%nat (tries - Z.of_nat k) k)
      as (s' & Hd & _ & Hc & _); [lia|lia|assumption..|].
    assert (Hfirst : exists script, cb k = CallReturn (PyIter script)).
    { destruct m as [|m'].
      - rewrite Nat.add_0_r in Hok. unfold producer in Hok. eauto.
      - destruct (Hfail O) as (cut & e & kk & _ & Hcb & _); [lia|].
        rewrite Nat.add_0_r in Hcb. unfold fails_after in Hcb. eauto. }
    destruct Hfirst as (script & Hcb).
    rewrite <- Hc.
    eapply call_and_iterate_resumable; [| |exact Hfuel].
    + apply wrapper_resumable with (k := k); [lia|assumption|exact Hcb|reflexivity].
    + apply drains_first_iterator; [lia|assumption|exact Hd].
  - intros Hfail.
    destruct (@exhausts xs Hag (Z.to_nat tries - k) 0%nat k)
      as (n & s' & Hn & Hd & _ & Hc); [lia| |].
    { intros j Hj. apply Hfail. lia. }
    exists n. split; [lia|]. intros fuel Hfuel.
    destruct (Hfail O) as (cut & e & kk & _ & Hcb & _); [lia|].
    rewrite Nat.add_0_r in Hcb. unfold fails_after in Hcb.
    replace (Z.to_nat tries) with (cb_calls s') by lia.
    simpl in Hd.
    eapply call_and_iterate_resumable.
    + apply wrapper_resumable with (k := k); [lia|assumption|exact Hcb|reflexivity].
    + apply drains_first_iterator; [lia|exact Hcb|].
      replace (tries - Z.of_nat k) with (Z.of_nat (Z.to_nat tries - k)) by lia.
      exact Hd.
    + rewrite length_firstn. lia.
Qed.

(** C2. Consistency enforcement. The iterator has been dropped after a
    transient failure and is recreated; the new one gives again records
    that agree with the items sent at the positions before [i] (the
    length of [pre]), and at position [i] a record [new] that the
    comparison finds different from the item [sent] at that position.
    Then [__next__] raises 'Site replied inconsistently between retries'
    with [sent] and [new]: nothing is retried (the budget is not touched
    and the function is not invoked again), nothing is added to the items,
    and a [for] loop of the consumer gets no further record.
    [BrowserUnavailable] is not of the class that is retried. *)
Theorem inconsistent_replay_fails
    (pre pre' : list V) (sent new : V) (post : list V)
    (k : list (event V)) (r : Z) (c : nat) :
  0 < r ->
  cb c = CallReturn (PyIter (map (@EvYield V) pre' ++ EvYield new :: k)) ->
  Forall2 agree pre pre' ->
  records_equal sent new = Return false ->
  exc_check (BrowserUnavailable (RepliedInconsistently sent new)) = false ->
  let s := mk_iter_retry PyNone (pre ++ sent :: post) r c in
  let s' := mk_iter_retry (PyIter k) (pre ++ sent :: post) r (S c) in
  __next__ s = (Raise (BrowserUnavailable (RepliedInconsistently sent new)), s') /\
  forall fuel, (0 < fuel)%nat ->
    for_loop fuel s =
    ([], Some (BrowserUnavailable (RepliedInconsistently sent new)), s').
Proof.
  intros Hr Hcb Hag Hne Hexc s s'.
  assert (Hnext : __next__ s =
            (Raise (BrowserUnavailable (RepliedInconsistently sent new)), s')).
  { subst s s'. rewrite next_running by (simpl; auto).
    unfold next_body. simpl. rewrite Hcb. simpl.
    rewrite replay_agree by assumption. simpl. rewrite Hne. simpl.
    rewrite Hexc. reflexivity. }
  split; [exact Hnext|].
  intros [|fuel] Hf; [lia|]. simpl. rewrite Hnext. reflexivity.
Qed.

(** C3. Short replay. The recreated iterator gives again records that
    agree with the first [i] items sent (the length of [pre]) and then
    ends, while more items had been sent. Then [__next__] raises 'Site
    replied fewer elements than last iteration': the sequence does not
    end with [StopIteration], the budget is not touched and the function
    is not invoked again, whatever the class that is retried. *)
Theorem short_replay_fails
    (pre pre' : list V) (sent : V) (post : list V) (r : Z) (c : nat) :
  0 < r ->
  cb c = CallReturn (PyIter (map (@EvYield V) pre')) ->
  Forall2 agree pre pre' ->
  let s := mk_iter_retry PyNone (pre ++ sent :: post) r c in
  let s' := mk_iter_retry (PyIter []) (pre ++ sent :: post) r (S c) in
  let e := BrowserUnavailable
             (RepliedFewer (List.length pre + 1)
                           (List.length (pre ++ sent :: post))) in
  __next__ s = (Raise e, s') /\
  forall fuel, (0 < fuel)%nat -> for_loop fuel s = ([], Some e, s').
Proof.
  intros Hr Hcb Hag s s' e.
  assert (Hnext : __next__ s = (Raise e, s')).
  { subst s s' e. rewrite next_running by (simpl; auto).
    unfold next_body. simpl. rewrite Hcb. simpl.
    rewrite <- (app_nil_r (map _ pre')).
    rewrite replay_agree by assumption. reflexivity. }
  split; [exact Hnext|].
  intros [|fuel] Hf; [lia|]. simpl. rewrite Hnext. reflexivity.
Qed.

(** C6. An exception [e] that is not of the class [exc_check] goes to the
    caller at once, the budget untouched and the function not invoked
    again: (1) raised by an invocation of the function in the wrapper,
    after [k] transient ones; (2) raised by the iterator in hand;
    (3) raised by a recreated iterator during the replay ([StopIteration]
    apart, which is the end of the data); (4) raised by the invocation
    that recreates the iterator. *)
Theorem other_exceptions_propagate (e : exn V) :
  exc_check e = false ->
  (forall (k : nat) (tries : Z),
     Z.of_nat k < tries ->
     (forall j, (j < k)%nat -> transient_call (cb j)) ->
     cb k = CallRaise e ->
     wrapper tries = (Raise e, S k)) /\
  (forall k its r c,
     0 < r ->
     __next__ (mk_iter_retry (PyIter (EvRaise e :: k)) its r c) =
     (Raise e, mk_iter_retry (PyIter k) its r c)) /\
  (forall pre pre' sent post k r c,
     0 < r -> is_StopIteration e = false ->
     cb c = CallReturn (PyIter (map (@EvYield V) pre' ++ EvRaise e :: k)) ->
     Forall2 agree pre pre' ->
     __next__ (mk_iter_retry PyNone (pre ++ sent :: post) r c) =
     (Raise e, mk_iter_retry (PyIter k) (pre ++ sent :: post) r (S c))) /\
  (forall its r c,
     0 < r -> cb c = CallRaise e ->
     __next__ (mk_iter_retry PyNone its r c) =
     (Raise e, mk_iter_retry PyNone its r (S c))).
Proof.
  intros He. repeat split.
  - intros k tries Hk Hcalls Hcb. now apply wrapper_propagates.
  - intros k its r c Hr. rewrite next_with_iterator by (simpl; auto).
    unfold return_one_item. simpl. rewrite He. reflexivity.
  - intros pre pre' sent post k r c Hr Hs Hcb Hag.
    rewrite next_running by (simpl; auto).
    unfold next_body. simpl. rewrite Hcb. simpl.
    rewrite replay_raise by assumption. rewrite Hs, He. reflexivity.
  - intros its r c Hr Hcb. now apply next_recreation_raises.
Qed.

(** C9. The comparison of the replay. At position [i] (the length of
    [pre]) the record [new] given again is compared with the item [sent]
    at that position: through [to_dict] of both when [new] has the
    attribute, with [==] on the records otherwise. Equal, the replay goes
    on with the next position; different, it raises 'Site replied
    inconsistently between retries'. *)
Theorem replay_compares_by_to_dict_or_eq
    (pre pre' : list V) (sent new : V) (post : list V) (k : list (event V)) :
  Forall2 agree pre pre' ->
  let o := PyIter (map (@EvYield V) pre' ++ EvYield new :: k) in
  let i := List.length pre in
  let verdict (equal : bool) :=
    if equal then replay (S i) post (PyIter k)
    else (Some (BrowserUnavailable (RepliedInconsistently sent new), i),
          PyIter k) in
  (forall ds dn, to_dict sent = Some ds -> to_dict new = Some dn ->
     records_equal sent new = Return (dict_eqb ds dn) /\
     replay 0 (pre ++ sent :: post) o = verdict (dict_eqb ds dn)) /\
  (to_dict new = None ->
     records_equal sent new = Return (py_eqb sent new) /\
     replay 0 (pre ++ sent :: post) o = verdict (py_eqb sent new)).
Proof.
  intros Hag o i verdict. subst o i verdict. split.
  - intros ds dn Hs Hn.
    assert (E : records_equal sent new = Return (dict_eqb ds dn)).
    { unfold records_equal. now rewrite Hn, Hs. }
    split; [exact E|].
    rewrite replay_agree by assumption. simpl. rewrite E.
    destruct (dict_eqb ds dn); reflexivity.
  - intros Hn.
    assert (E : records_equal sent new = Return (py_eqb sent new)).
    { unfold records_equal. now rewrite Hn. }
    split; [exact E|].
    rewrite replay_agree by assumption. simpl. rewrite E.
    destruct (py_eqb sent new); reflexivity.
Qed.

(** ** Properties of the login *)

Lemma no_need_login_restores (R : Type) (func : browser P -> R * browser P) b :
  (forall b1, no_login (snd (func b1)) = no_login b1) ->
  no_login (snd (no_need_login func b)) = no_login b.
Proof.
  intros H. unfold no_need_login.
  specialize (H (set_no_login b (no_login b + 1))).
  destruct (func _) as [r b2]. simpl in *. lia.
Qed.

Lemma exec_keeps_no_login (body : list stmt) :
  Forall (fun st : stmt => forall b, no_login (snd (st b)) = no_login b) body ->
  forall b, no_login (snd (exec body b)) = no_login b.
Proof.
  induction 1 as [|st rest Hst _ IH]; intros b; simpl; [reflexivity|].
  specialize (Hst b). destruct (st b) as [[e|] b']; simpl in *; [assumption|].
  rewrite IH. assumption.
Qed.

Lemma visited_keep_no_login (body : list stmt) :
  Forall (fun st : stmt => forall b, no_login (snd (st b)) = no_login b) body ->
  forall b, Forall (fun b' => no_login b' = no_login b) (visited body b).
Proof.
  induction 1 as [|st rest Hst _ IH]; intros b; simpl.
  - constructor; auto.
  - constructor; [reflexivity|].
    specialize (Hst b). destruct (st b) as [[e|] b']; simpl in *.
    + constructor; auto.
    + eapply Forall_impl; [|apply IH]. simpl. intros b'' Hb. congruence.
Qed.

Lemma do_login_body_keeps_no_login :
  (forall url b, no_login (snd (location url b)) = no_login b) ->
  (forall u p b, no_login (snd (page_login u p b)) = no_login b) ->
  Forall (fun st : stmt => forall b, no_login (snd (st b)) = no_login b)
         do_login_body.
Proof.
  intros Hloc Hlog. unfold do_login_body.
  repeat constructor; intros b; auto.
  destruct (login_page_is_here b); reflexivity.
Qed.

(** The states a body goes through start with the state it is run from
    and end with the state it leaves. *)
Lemma visited_first (body : list stmt) b :
  hd_error (visited body b) = Some b.
Proof. destruct body; reflexivity. Qed.

Lemma visited_last (body : list stmt) : forall b d,
  last (visited body b) d = snd (exec body b).
Proof.
  induction body as [|st rest IH]; intros b d; [reflexivity|].
  change (visited (st :: rest) b)
    with (b :: match st b with
               | (Some _, b') => [b']
               | (None, b') => visited rest b'
               end).
  change (exec (st :: rest) b)
    with (match st b with
          | (Some e, b') => (Some e, b')
          | (None, b') => exec rest b'
          end).
  destruct (st b) as [[e|] b1].
  - reflexivity.
  - rewrite <- (IH b1 d). destruct rest; reflexivity.
Qed.

(** Observation does not change the run: the guard gives the same result
    and leaves the same browser with and without it. *)
Lemma no_need_login_observed (body : list stmt) b :
  no_need_login (exec body) b =
  (fst (fst (no_need_login (exec_observed body) b)),
   snd (no_need_login (exec_observed body) b)).
Proof.
  unfold no_need_login, exec_observed.
  destruct (exec body _) as [r b2]. reflexivity.
Qed.

(** C8. The counter [no_login] around [do_login]. The site does not
    write the counter, and the counter is not negative before the call.
    [do_login] is run with its body under observation: [r] is how it ends
    (a return or an exception), [states] are the states the browser goes
    through while the body runs under the guard, [b'] is the browser
    afterwards, and the run without observation ends the same. The body
    starts from the browser with the counter incremented, in every state
    it goes through the counter is strictly positive (it is the value
    before the call plus one), the browser after the call is the last of
    these states with the counter decremented, and there the counter has
    the value it had before the call. *)
Theorem login_counter_scoped (b : browser P) :
  (forall url b', no_login (snd (location url b')) = no_login b') ->
  (forall u p b', no_login (snd (page_login u p b')) = no_login b') ->
  0 <= no_login b ->
  exists r states b',
    do_login_observed b = ((r, states), b') /\
    do_login b = (r, b') /\
    hd_error states = Some (set_no_login b (no_login b + 1)) /\
    Forall (fun b'' => 0 < no_login b'' /\ no_login b'' = no_login b + 1)
           states /\
    b' = set_no_login (last states b) (no_login (last states b) - 1) /\
    no_login b' = no_login b.
Proof.
  intros Hloc Hlog Hpos.
  pose proof (do_login_body_keeps_no_login Hloc Hlog) as Hbody.
  set (b1 := set_no_login b (no_login b + 1)).
  exists (fst (exec do_login_body b1)), (visited do_login_body b1),
         (set_no_login (snd (exec do_login_body b1))
                       (no_login (snd (exec do_login_body b1)) - 1)).
  assert (Hrun : do_login_observed b =
                 ((fst (exec do_login_body b1), visited do_login_body b1),
                  set_no_login (snd (exec do_login_body b1))
                               (no_login (snd (exec do_login_body b1)) - 1))).
  { unfold do_login_observed, no_need_login, exec_observed. fold b1.
    destruct (exec do_login_body b1) as [r b2]. reflexivity. }
  split; [exact Hrun|]. split; [|split; [|split; [|split]]].
  - unfold do_login. rewrite no_need_login_observed.
    fold do_login_observed. rewrite Hrun. reflexivity.
  - apply visited_first.
  - eapply Forall_impl; [|apply visited_keep_no_login; exact Hbody].
    simpl. intros b'' Hb''. unfold b1 in Hb''. simpl in Hb''. lia.
  - rewrite visited_last. reflexivity.
  - cbn [no_login set_no_login].
    rewrite (exec_keeps_no_login Hbody b1). unfold b1. cbn [no_login set_no_login]. lia.
Qed.

(** C7. Wrong credentials. When the navigation and the submission of the
    credentials succeed and the browser is then still on the login page,
    [do_login] raises [BrowserIncorrectPassword]. That exception is not of
    the class the retry machinery retries: raised by an invocation of a
    decorated function, the wrapper lets it out at once after [k]
    transient failures, and so does [__next__] when it recreates the
    iterator; the function is not invoked again and the budget is not
    touched. *)
Theorem wrong_credentials_not_retried (b b1 b2 : browser P) :
  location (BASEURL b) (set_no_login b (no_login b + 1)) = (None, b1) ->
  page_login (username b1) (password b1) b1 = (None, b2) ->
  login_page_is_here b2 = true ->
  exc_check BrowserIncorrectPassword = false ->
  do_login b =
  (Some BrowserIncorrectPassword, set_no_login b2 (no_login b2 - 1)) /\
  (forall (k : nat) (tries : Z),
     Z.of_nat k < tries ->
     (forall j, (j < k)%nat -> transient_call (cb j)) ->
     cb k = CallRaise BrowserIncorrectPassword ->
     wrapper tries = (Raise BrowserIncorrectPassword, S k)) /\
  (forall its r c,
     0 < r -> cb c = CallRaise BrowserIncorrectPassword ->
     __next__ (mk_iter_retry PyNone its r c) =
     (Raise BrowserIncorrectPassword, mk_iter_retry PyNone its r (S c))).
Proof.
  intros Hloc Hlog Hhere Hexc. split; [|split].
  - unfold do_login, no_need_login. simpl.
    rewrite Hloc, Hlog, Hhere. reflexivity.
  - intros k tries Hk Hcalls Hcb. now apply wrapper_propagates.
  - intros its r c Hr Hcb. now apply next_recreation_raises.
Qed.


(** ** Invariants of the iterator, whatever the site does *)

Lemma next_induction
    (Q : iter_retry V -> outcome V V * iter_retry V -> Prop) :
  (forall s, remaining s <= 0 ->
             Q s (Raise (BrowserUnavailable DidNotReply), s)) ->
  (forall s, 0 < remaining s ->
     (forall s', remaining s' = remaining s - 1 -> Q s' (__next__ s')) ->
     Q s (next_body __next__ s)) ->
  forall s, Q s (__next__ s).
Proof.
  intros Hzero Hstep s.
  remember (Z.to_nat (remaining s)) as n eqn:En. revert s En.
  induction n as [|n IH]; intros s En.
  - rewrite next_exhausted by lia. apply Hzero. lia.
  - rewrite next_running by lia. apply Hstep; [lia|].
    intros s' Hs'. apply IH. lia.
Qed.

(** The three ways out of "return one item". *)
Lemma return_one_item_cases s (Q : outcome V V * iter_retry V -> Prop) :
  (forall obj k,
     it s = PyIter (EvYield obj :: k) ->
     Q (Return obj,
        mk_iter_retry (PyIter k) (items s ++ [obj]) (remaining s) (cb_calls s))) ->
  (forall e o',
     py_next (it s) = (Raise e, o') -> exc_check e = false ->
     Q (Raise e, set_it s o')) ->
  (forall e o',
     py_next (it s) = (Raise e, o') -> exc_check e = true ->
     Q (__next__ (give_up_iterator s))) ->
  Q (return_one_item __next__ s).
Proof.
  intros Hy Hr Ht. unfold return_one_item.
  destruct (py_next (it s)) as [[obj|e] o'] eqn:E.
  - destruct (it s) as [|v|[|[v|e] k]]; simpl in E; inversion E; subst.
    now apply Hy.
  - destruct (exc_check e) eqn:He; [eapply Ht|eapply Hr]; eauto.
Qed.

(** The ways through [__next__] when there is budget left. *)
Lemma next_body_cases s (Q : outcome V V * iter_retry V -> Prop) :
  (is_None (it s) = false -> Q (return_one_item __next__ s)) ->
  (forall e,
     is_None (it s) = true -> cb (cb_calls s) = CallRaise e ->
     Q (Raise e,
        mk_iter_retry PyNone (items s) (remaining s) (S (cb_calls s)))) ->
  (forall o o',
     is_None (it s) = true -> cb (cb_calls s) = CallReturn o ->
     replay 0 (items s) o = (None, o') ->
     Q (return_one_item __next__
          (mk_iter_retry o' (items s) (remaining s) (S (cb_calls s))))) ->
  (forall o o' e nb,
     is_None (it s) = true -> cb (cb_calls s) = CallReturn o ->
     replay 0 (items s) o = (Some (e, nb), o') ->
     is_StopIteration e = true ->
     Q (Raise (BrowserUnavailable
                 (RepliedFewer (nb + 1)%nat (List.length (items s)))),
        mk_iter_retry o' (items s) (remaining s) (S (cb_calls s)))) ->
  (forall o o' e nb,
     is_None (it s) = true -> cb (cb_calls s) = CallReturn o ->
     replay 0 (items s) o = (Some (e, nb), o') ->
     is_StopIteration e = false -> exc_check e = true ->
     Q (__next__
          (mk_iter_retry PyNone (items s) (remaining s - 1) (S (cb_calls s))))) ->
  (forall o o' e nb,
     is_None (it s) = true -> cb (cb_calls s) = CallReturn o ->
     replay 0 (items s) o = (Some (e, nb), o') ->
     is_StopIteration e = false -> exc_check e = false ->
     Q (Raise e,
        mk_iter_retry o' (items s) (remaining s) (S (cb_calls s)))) ->
  Q (next_body __next__ s).
Proof.
  intros Hit Hraise Hok Hfewer Hretry Hout. unfold next_body.
  destruct (is_None (it s)) eqn:En; [|now apply Hit].
  destruct (cb (cb_calls s)) as [o|e] eqn:Hcb; [|now apply Hraise].
  cbv zeta. simpl.
  destruct (replay 0 (items s) o) as [[[e nb]|] o'] eqn:Hrep.
  - destruct (is_StopIteration e) eqn:Hs; [eapply Hfewer; eauto|].
    destruct (exc_check e) eqn:He; [eapply Hretry|eapply Hout]; eauto.
  - eapply Hok; eauto.
Qed.

(** The items are what has been returned: [__next__] adds the record it
    returns and nothing else; it never gives budget back and never forgets
    an invocation. *)
Lemma next_frame s :
  let '(res, s') := __next__ s in
  match res with
  | Return obj => items s' = items s ++ [obj]
  | Raise _ => items s' = items s
  end /\
  remaining s' <= remaining s /\ (cb_calls s <= cb_calls s')%nat.
Proof.
  pattern s, (__next__ s). apply next_induction; clear s.
  - intros s Hr. simpl. repeat split; lia.
  - intros s Hr IH.
    assert (Hroi : forall s1,
               items s1 = items s -> remaining s1 = remaining s ->
               (cb_calls s <= cb_calls s1)%nat ->
               let '(res, s') := return_one_item __next__ s1 in
               match res with
               | Return obj => items s' = items s ++ [obj]
               | Raise _ => items s' = items s
               end /\
               remaining s' <= remaining s /\ (cb_calls s <= cb_calls s')%nat).
    { intros s1 Hi Hrem Hc. apply return_one_item_cases.
      - intros obj k _. simpl. rewrite Hi. repeat split; lia.
      - intros e o' _ _. simpl. repeat split; auto; lia.
      - intros e o' _ _.
        specialize (IH (give_up_iterator s1)).
        destruct (__next__ (give_up_iterator s1)) as [res s'].
        simpl in IH. rewrite Hi in IH.
        destruct IH as (? & ? & ?); [lia|]. repeat split; auto; lia. }
    apply next_body_cases.
    + intros _. apply Hroi; auto.
    + intros e _ _. simpl. repeat split; auto; lia.
    + intros o o' _ _ _. apply Hroi; simpl; auto.
    + intros o o' e nb _ _ _ _. simpl. repeat split; auto; lia.
    + intros o o' e nb _ _ _ _ _.
      set (s1 := mk_iter_retry PyNone (items s) (remaining s - 1) (S (cb_calls s))).
      specialize (IH s1). destruct (__next__ s1) as [res s'].
      simpl in IH. destruct IH as (? & ? & ?); [lia|]. repeat split; auto; lia.
    + intros o o' e nb _ _ _ _ _. simpl. repeat split; auto; lia.
Qed.

Lemma for_loop_frame fuel : forall s objs e s',
  for_loop fuel s = (objs, e, s') ->
  items s' = items s ++ objs /\
  remaining s' <= remaining s /\ (cb_calls s <= cb_calls s')%nat.
Proof.
  induction fuel as [|fuel IH]; intros s objs e s' H; simpl in H.
  - inversion H; subst. rewrite app_nil_r. repeat split; lia.
  - pose proof (next_frame s) as Hn.
    destruct (__next__ s) as [[obj|ex] s1].
    + destruct (for_loop fuel s1) as [[objs1 e1] s2] eqn:E.
      inversion H; subst. destruct (IH _ _ _ _ E) as (Hi & Hr & Hc).
      destruct Hn as (Hi1 & Hr1 & Hc1).
      rewrite Hi, Hi1, <- app_assoc. repeat split; auto; lia.
    + inversion H; subst. destruct Hn as (Hi1 & Hr1 & Hc1).
      rewrite app_nil_r. repeat split; auto.
Qed.

(** Projections of a state written out, without touching the numbers. *)
Ltac fields :=
  unfold set_it, give_up_iterator in *;
  cbn [cb_calls remaining it items is_None] in *.

(** Accounting of the budget against a total [T]: with an iterator in
    hand, invocations made plus budget left is [T + 1]; once the iterator
    has been dropped, it is [T]. *)
Lemma next_accounting (T : Z) s :
  0 <= remaining s ->
  (is_None (it s) = true -> Z.of_nat (cb_calls s) + remaining s = T) ->
  (is_None (it s) = false ->
   Z.of_nat (cb_calls s) + remaining s = T + 1 /\ 1 <= remaining s) ->
  let '(res, s') := __next__ s in
  match res with
  | Return _ =>
      is_None (it s') = false /\
      Z.of_nat (cb_calls s') + remaining s' = T + 1 /\ 1 <= remaining s'
  | Raise _ =>
      Z.of_nat (cb_calls s') <= T /\ 0 <= remaining s' /\
      (remaining s' = 0 -> Z.of_nat (cb_calls s') = T)
  end.
Proof.
  pattern s, (__next__ s). apply next_induction; clear s.
  - intros s Hr H0 Hnone Hit. fields.
    destruct (is_None (it s)) eqn:En.
    + specialize (Hnone eq_refl). repeat split; lia.
    + destruct (Hit eq_refl). lia.
  - intros s Hr IH H0 Hnone Hit.
    assert (Hroi : forall s1,
               remaining s1 = remaining s ->
               Z.of_nat (cb_calls s1) + remaining s1 = T + 1 ->
               let '(res, s') := return_one_item __next__ s1 in
               match res with
               | Return _ =>
                   is_None (it s') = false /\
                   Z.of_nat (cb_calls s') + remaining s' = T + 1 /\
                   1 <= remaining s'
               | Raise _ =>
                   Z.of_nat (cb_calls s') <= T /\ 0 <= remaining s' /\
                   (remaining s' = 0 -> Z.of_nat (cb_calls s') = T)
               end).
    { intros s1 Hrem Hsum. apply return_one_item_cases.
      - intros obj k _. fields. repeat split; lia.
      - intros e o' _ _. fields. repeat split; lia.
      - intros e o' _ _. apply IH; fields; try lia; try discriminate. }
    apply next_body_cases.
    + intros En. apply Hroi; [reflexivity|]. now destruct (Hit En).
    + intros e En _. specialize (Hnone En). fields. repeat split; lia.
    + intros o o' En _ _. specialize (Hnone En). apply Hroi; fields; lia.
    + intros o o' e nb En _ _ _. specialize (Hnone En). fields.
      repeat split; lia.
    + intros o o' e nb En _ _ _ _. specialize (Hnone En).
      apply IH; fields; try lia; try discriminate.
    + intros o o' e nb En _ _ _ _. specialize (Hnone En). fields.
      repeat split; lia.
Qed.

Lemma for_loop_accounting (T : Z) fuel : forall s objs e s',
  is_None (it s) = false ->
  Z.of_nat (cb_calls s) + remaining s = T + 1 -> 1 <= remaining s ->
  for_loop fuel s = (objs, e, s') ->
  Z.of_nat (cb_calls s') <= T /\ 0 <= remaining s' /\
  (remaining s' = 0 -> Z.of_nat (cb_calls s') = T) /\
  (e = None ->
   Z.of_nat (cb_calls s') + remaining s' = T + 1 /\ 1 <= remaining s').
Proof.
  induction fuel as [|fuel IH]; intros s objs e s' Hit Hsum Hr H; simpl in H.
  - inversion H; subst. repeat split; lia.
  - pose proof (@next_accounting T s) as Hn.
    destruct (__next__ s) as [[obj|ex] s1].
    + destruct (for_loop fuel s1) as [[objs1 e1] s2] eqn:E.
      inversion H; subst.
      destruct Hn as (Hit1 & Hsum1 & Hr1); [lia|congruence|auto|].
      apply (IH _ _ _ _ Hit1 Hsum1 Hr1 E).
    + inversion H; subst.
      destruct Hn as (Hc & Hr1 & Hz); [lia|congruence|auto|].
      repeat split; auto; discriminate.
Qed.

(** What the loop of the wrapper leaves: at most [n] more invocations;
    and the iterator it wraps comes from the last invocation, with one
    unit of budget for it and for each invocation not made. *)
Lemma wrapper_loop_leaves (n : nat) : forall c,
  match wrapper_loop n c with
  | (Return (Resumable s), c') =>
      c' = cb_calls s /\ is_None (it s) = false /\ items s = [] /\
      Z.of_nat (cb_calls s) + remaining s = Z.of_nat c + Z.of_nat n + 1 /\
      1 <= remaining s /\
      exists j, cb_calls s = S j /\ cb j = CallReturn (it s) /\
                has_iter (it s) = true
  | (_, c') => (c' <= c + n)%nat
  end.
Proof.
  induction n as [|n IH]; intros c; simpl; [lia|].
  destruct (cb c) as [ret|e] eqn:Hcb.
  - destruct (has_iter ret) eqn:Hit; simpl; [|lia].
    repeat split; try lia.
    + destruct ret; simpl in *; congruence.
    + exists c. auto.
  - destruct (exc_check e); [|lia].
    specialize (IH (S c)).
    destruct (wrapper_loop n (S c)) as [[[o|s]|ex] c']; try lia.
    destruct IH as (? & ? & ? & ? & ? & ?). repeat split; auto; lia.
Qed.

Lemma wrapped_items (tries : Z) (fuel : nat) s0 calls objs e s' :
  wrapper tries = (Return (Resumable s0), calls) ->
  for_loop fuel s0 = (objs, e, s') ->
  items s' = objs.
Proof.
  intros Hw Hloop. unfold wrapper in Hw.
  pose proof (wrapper_loop_leaves (Z.to_nat tries) 0) as Hl.
  rewrite Hw in Hl. destruct Hl as (_ & _ & Hi & _).
  destruct (for_loop_frame _ _ Hloop) as (Hitems & _).
  now rewrite Hitems, Hi.
Qed.

(** X1. The decorated function is called at most [tries] times (at most
    4 by default, as the docstring of [retry] says), whatever it does at
    each invocation and however long the caller iterates. *)
Theorem never_more_invocations_than_tries (tries : Z) (fuel : nat) :
  match call_and_iterate tries fuel with
  | GotValue _ calls => (calls <= Z.to_nat tries)%nat
  | GotRecords _ _ calls => (calls <= Z.to_nat tries)%nat
  end.
Proof.
  unfold call_and_iterate, wrapper.
  pose proof (wrapper_loop_leaves (Z.to_nat tries) 0) as Hw.
  destruct (wrapper_loop (Z.to_nat tries) 0) as [[[o|s]|ex] c']; try lia.
  destruct Hw as (_ & Hit & _ & Hsum & Hr & _).
  destruct (for_loop fuel s) as [[objs e] s'] eqn:E.
  destruct (@for_loop_accounting (Z.of_nat (Z.to_nat tries)) _ _ _ _ _
              Hit ltac:(lia) Hr E) as (Hc & _).
  lia.
Qed.

(** X2. Accounting of the budget, for any site. From the iterator the
    wrapper returns, however the iteration goes: the budget left is never
    negative and never grows; as long as the consumer is served,
    invocations made plus budget left is [tries + 1], with budget left;
    and the budget is at zero in the end only when exactly [tries]
    invocations have been made. *)
Theorem budget_accounting (tries : Z) (fuel : nat) s0 calls objs e s' :
  wrapper tries = (Return (Resumable s0), calls) ->
  for_loop fuel s0 = (objs, e, s') ->
  0 <= remaining s' <= remaining s0 /\
  (e = None ->
   Z.of_nat (cb_calls s') + remaining s' = tries + 1 /\ 1 <= remaining s') /\
  (remaining s' = 0 -> Z.of_nat (cb_calls s') = tries).
Proof.
  intros Hw Hloop. unfold wrapper in Hw.
  pose proof (wrapper_loop_leaves (Z.to_nat tries) 0) as Hl.
  rewrite Hw in Hl. destruct Hl as (_ & Hit & _ & Hsum & Hr & _).
  assert (Htries : Z.of_nat (Z.to_nat tries) = tries).
  { destruct (Z.to_nat tries) eqn:Et; [|lia].
    unfold wrapper_loop in Hw. discriminate Hw. }
  destruct (@for_loop_accounting tries _ _ _ _ _ Hit ltac:(lia) Hr Hloop)
    as (Hc & Hr' & Hz & Hnone).
  destruct (for_loop_frame _ _ Hloop) as (_ & Hle & _).
  repeat split; auto; try lia; now apply Hnone.
Qed.

(** X3. The items kept for the replay are the records the consumer has
    received, in the order it received them: nothing else is ever added,
    and nothing removed, over any number of retries. *)
Theorem items_are_the_records_returned (tries : Z) (fuel : nat) s0 calls objs e s' :
  wrapper tries = (Return (Resumable s0), calls) ->
  for_loop fuel s0 = (objs, e, s') ->
  items s' = objs.
Proof.
  intros Hw Hloop. exact (@wrapped_items _ _ _ _ _ _ _ Hw Hloop).
Qed.

(** A replay that goes through has read, from the new iterator, one
    record for each item, each accepted by the comparison. *)
Lemma replay_through (sent_items : list V) : forall nb o o' rest,
  replay nb sent_items o = (None, o') -> o' = PyIter rest ->
  exists ys, o = PyIter (map (@EvYield V) ys ++ rest) /\
             Forall2 agree sent_items ys.
Proof.
  induction sent_items as [|sent l IH]; intros nb o o' rest H Ho'; simpl in H.
  - inversion H; subst. exists []. split; [reflexivity|constructor].
  - destruct (py_next o) as [[new|e] o1] eqn:E; [|discriminate].
    destruct (records_equal sent new) as [[|]|e] eqn:Heq; try discriminate.
    destruct (IH _ _ _ _ H Ho') as (ys & Ho1 & Hag).
    exists (new :: ys). split; [|constructor; assumption].
    destruct o as [|v|[|[v|e] k]]; simpl in E; inversion E; subst.
    simpl. congruence.
Qed.

(** With an iterator in hand, the items are, record by record, what the
    last invocation's iterator has given before the point it is at. *)
Lemma next_keeps_agreement s :
  (forall rest, it s = PyIter rest ->
     exists j ys, cb_calls s = S j /\
       cb j = CallReturn (PyIter (map (@EvYield V) ys ++ rest)) /\
       Forall2 same_or_agree (items s) ys) ->
  let '(res, s') := __next__ s in
  match res with
  | Return _ =>
      exists rest j ys, it s' = PyIter rest /\ cb_calls s' = S j /\
        cb j = CallReturn (PyIter (map (@EvYield V) ys ++ rest)) /\
        Forall2 same_or_agree (items s') ys
  | Raise _ => True
  end.
Proof.
  pattern s, (__next__ s). apply next_induction; clear s.
  - intros s _ _. exact I.
  - intros s Hr IH Hinv.
    assert (Hroi : forall s1,
               remaining s1 = remaining s ->
               (forall rest, it s1 = PyIter rest ->
                  exists j ys, cb_calls s1 = S j /\
                    cb j = CallReturn (PyIter (map (@EvYield V) ys ++ rest)) /\
                    Forall2 same_or_agree (items s1) ys) ->
               let '(res, s') := return_one_item __next__ s1 in
               match res with
               | Return _ =>
                   exists rest j ys, it s' = PyIter rest /\ cb_calls s' = S j /\
                     cb j = CallReturn (PyIter (map (@EvYield V) ys ++ rest)) /\
                     Forall2 same_or_agree (items s') ys
               | Raise _ => True
               end).
    { intros s1 Hrem Hinv1. apply return_one_item_cases.
      - intros obj k Hit.
        destruct (Hinv1 _ Hit) as (j & ys & Hc & Hcb & Hag).
        exists k, j, (ys ++ [obj]). fields. repeat split; auto.
        + rewrite Hcb, map_app, <- app_assoc. reflexivity.
        + apply Forall2_app; [assumption|]. repeat constructor.
      - intros; exact I.
      - intros e o' _ _. apply IH; fields; [lia|]. discriminate. }
    apply next_body_cases.
    + intros _. apply Hroi; auto.
    + intros; exact I.
    + intros o o' _ Hcb Hrep. apply Hroi; [reflexivity|]. fields.
      intros rest Ho'.
      destruct (replay_through _ _ _ Hrep Ho') as (ys & Ho & Hag).
      exists (cb_calls s), ys. repeat split; [congruence|].
      eapply Forall2_impl; [|exact Hag]. intros a b Hab. now right.
    + intros; exact I.
    + intros o o' e nb _ _ _ _ _. apply IH; fields; [lia|]. discriminate.
    + intros; exact I.
Qed.

Lemma for_loop_keeps_agreement fuel : forall s objs s',
  (exists rest j ys, it s = PyIter rest /\ cb_calls s = S j /\
     cb j = CallReturn (PyIter (map (@EvYield V) ys ++ rest)) /\
     Forall2 same_or_agree (items s) ys) ->
  for_loop fuel s = (objs, None, s') ->
  exists rest j ys, it s' = PyIter rest /\ cb_calls s' = S j /\
    cb j = CallReturn (PyIter (map (@EvYield V) ys ++ rest)) /\
    Forall2 same_or_agree (items s') ys.
Proof.
  induction fuel as [|fuel IH]; intros s objs s' Hinv H; simpl in H.
  - inversion H; subst. exact Hinv.
  - pose proof (next_keeps_agreement s) as Hn.
    destruct (__next__ s) as [[obj|ex] s1].
    + destruct (for_loop fuel s1) as [[objs1 e1] s2] eqn:E.
      inversion H; subst. eapply IH; [|exact E].
      apply Hn. destruct Hinv as (rest & j & ys & Hit & Hc & Hcb & Hag).
      intros rest' Hit'. rewrite Hit in Hit'. inversion Hit'; subst. eauto.
    + discriminate H.
Qed.

(** X4. Whatever the site does, after any number of records returned to
    the consumer, these records are, one by one and in order, the first
    records of the iterator in hand, the one the last invocation returned:
    each is the very record that iterator gave, or one it gave again and
    the comparison of the replay accepted. *)
Theorem records_are_those_of_the_last_iterator
    (tries : Z) (fuel : nat) s0 calls objs s' :
  wrapper tries = (Return (Resumable s0), calls) ->
  for_loop fuel s0 = (objs, None, s') ->
  exists rest j ys,
    it s' = PyIter rest /\ cb_calls s' = S j /\
    cb j = CallReturn (PyIter (map (@EvYield V) ys ++ rest)) /\
    Forall2 same_or_agree objs ys.
Proof.
  intros Hw Hloop.
  rewrite <- (@wrapped_items _ _ _ _ _ _ _ Hw Hloop).
  apply (@for_loop_keeps_agreement fuel s0 objs s'); [|exact Hloop].
  unfold wrapper in Hw.
  pose proof (wrapper_loop_leaves (Z.to_nat tries) 0) as Hl.
  rewrite Hw in Hl.
  destruct Hl as (_ & _ & Hi & _ & _ & j & Hc & Hcb & Hiter).
  destruct (it s0) as [|v|script] eqn:E; try discriminate.
  exists script, j, []. rewrite Hi. repeat split; auto.
Qed.

(** X5. A failure of the invocation that recreates the iterator is not
    retried. The iterator in hand gives the records [ys] and raises a
    transient exception; the function, invoked again, raises [e2]. Then
    the consumer gets [ys] and [e2], even when [e2] is transient too and
    budget is left ([tries - 1]). *)
Theorem failed_recreation_is_not_retried
    (tries : Z) (ys : list V) (e1 e2 : exn V) (k : list (event V)) :
  2 <= tries ->
  cb 0%nat = CallReturn (PyIter (map (@EvYield V) ys ++ EvRaise e1 :: k)) ->
  exc_check e1 = true ->
  cb 1%nat = CallRaise e2 ->
  exists s0,
    wrapper tries = (Return (Resumable s0), 1%nat) /\
    forall fuel, (List.length ys < fuel)%nat ->
      for_loop fuel s0 =
      (ys, Some e2, mk_iter_retry PyNone ys (tries - 1) 2).
Proof.
  intros Ht Hcb0 He1 Hcb1.
  exists (mk_iter_retry (PyIter (map (@EvYield V) ys ++ EvRaise e1 :: k))
                        [] tries 1).
  split.
  - rewrite (@wrapper_resumable 0%nat tries
               (PyIter (map (@EvYield V) ys ++ EvRaise e1 :: k)));
      [|lia| |exact Hcb0|reflexivity].
    + replace (tries - Z.of_nat 0) with tries by lia. reflexivity.
    + intros j Hj. lia.
  - intros fuel Hfuel.
    assert (Hd : drains
              (mk_iter_retry (PyIter (map (@EvYield V) ys ++ EvRaise e1 :: k))
                             [] tries 1)
              (ys ++ []) e2 (mk_iter_retry PyNone ys (tries - 1) 2)).
    { apply drains_yields; [lia|].
      eapply drains_same_next; [apply next_transient; [lia|assumption]|].
      apply drains_raise.
      apply next_recreation_raises; [lia|assumption]. }
    rewrite app_nil_r in Hd. apply Hd. exact Hfuel.
Qed.

(** X6. The inconsistency error does not close the iterator. In the
    situation of the consistency check (a record [new] that differs from
    the item [sent] at its position), a consumer that catches the error
    and asks again gets the record [v] that follows [new] in the new
    iterator, and [v] is added to the items. *)
Theorem iterator_not_closed_after_inconsistency
    (pre pre' : list V) (sent new v : V) (post : list V)
    (k : list (event V)) (r : Z) (c : nat) :
  0 < r ->
  cb c = CallReturn
           (PyIter (map (@EvYield V) pre' ++ EvYield new :: EvYield v :: k)) ->
  Forall2 agree pre pre' ->
  records_equal sent new = Return false ->
  exc_check (BrowserUnavailable (RepliedInconsistently sent new)) = false ->
  exists s1,
    __next__ (mk_iter_retry PyNone (pre ++ sent :: post) r c) =
    (Raise (BrowserUnavailable (RepliedInconsistently sent new)), s1) /\
    __next__ s1 =
    (Return v,
     mk_iter_retry (PyIter k) ((pre ++ sent :: post) ++ [v]) r (S c)).
Proof.
  intros Hr Hcb Hag Hne Hexc. eexists. split.
  - rewrite next_running by (simpl; auto).
    unfold next_body. simpl. rewrite Hcb. simpl.
    rewrite replay_agree by assumption. simpl. rewrite Hne. simpl.
    rewrite Hexc. reflexivity.
  - rewrite next_with_iterator by (simpl; auto). reflexivity.
Qed.

(** ** [get_account] over the resumable iterator *)

(** The loop of [get_account] returns what a search of the records a
    [for] loop would get returns. *)
Lemma get_account_loop_finds (id : string) (fuel : nat) : forall s objs e s',
  for_loop fuel s = (objs, Some e, s') ->
  fst (get_account_loop fuel id s) =
  match find (fun a => String.eqb (get_id a) id) objs with
  | Some a => Some (Return (Some a))
  | None => if is_StopIteration e then Some (Return None) else Some (Raise e)
  end.
Proof.
  induction fuel as [|fuel IH]; intros s objs e s' H; simpl in H.
  - discriminate H.
  - simpl. destruct (__next__ s) as [[a|ex] s1].
    + destruct (for_loop fuel s1) as [[objs1 e1] s2] eqn:E.
      inversion H; subst. simpl.
      destruct (String.eqb (get_id a) id); [reflexivity|].
      apply (IH _ _ _ _ E).
    + inversion H; subst. simpl. destruct (is_StopIteration e); reflexivity.
Qed.

(** The loop stops at the first record with the identifier. *)
Lemma get_account_loop_stops (id : string) (pre : list V) :
  forall fuel a k its r c,
    0 < r -> (List.length pre < fuel)%nat ->
    Forall (fun x => String.eqb (get_id x) id = false) pre ->
    String.eqb (get_id a) id = true ->
    get_account_loop fuel id
      (mk_iter_retry (PyIter (map (@EvYield V) pre ++ EvYield a :: k)) its r c) =
    (Some (Return (Some a)),
     mk_iter_retry (PyIter k) (its ++ pre ++ [a]) r c).
Proof.
  induction pre as [|x pre IH]; intros [|fuel] a k its r c Hr Hf Hpre Ha;
    simpl in Hf; try lia.
  - simpl. rewrite next_with_iterator by (simpl; auto).
    unfold return_one_item. simpl. rewrite Ha. reflexivity.
  - inversion Hpre as [|? ? Hx Hrest]; subst.
    simpl. rewrite next_with_iterator by (simpl; auto).
    unfold return_one_item. simpl. rewrite Hx.
    rewrite IH by (auto; lia). rewrite <- app_assoc. reflexivity.
Qed.

(** Under a schedule of failures that the budget covers, the wrapper
    returns an iterator from which a [for] loop gets [xs]. *)
Lemma schedule_drains (xs : list V) (tries : Z) (k m : nat) :
  (forall x, In x xs -> agree x x) ->
  exc_check StopIteration = false ->
  Z.of_nat (k + m) < tries ->
  (forall j, (j < k)%nat -> transient_call (cb j)) ->
  (forall j, (j < m)%nat -> transient_attempt xs (cb (k + j))) ->
  cb (k + m) = CallReturn (producer xs) ->
  exists s0 s',
    wrapper tries = (Return (Resumable s0), S k) /\
    drains s0 xs StopIteration s' /\ cb_calls s' = (k + m + 1)%nat.
Proof.
  intros Hag Hstop Hbudget Hcalls Hfail Hok.
  destruct (@recovers xs Hag m 0%nat (tries - Z.of_nat k) k)
    as (s' & Hd & _ & Hc & _); [lia|lia|assumption..|].
  assert (Hfirst : exists script, cb k = CallReturn (PyIter script)).
  { destruct m as [|m].
    - rewrite Nat.add_0_r in Hok. unfold producer in Hok. eauto.
    - destruct (Hfail O) as (cut & e & kk & _ & Hcb & _); [lia|].
      rewrite Nat.add_0_r in Hcb. unfold fails_after in Hcb. eauto. }
  destruct Hfirst as (script & Hcb).
  exists (mk_iter_retry (PyIter script) [] (tries - Z.of_nat k) (S k)), s'.
  split; [|split; [|exact Hc]].
  - apply wrapper_resumable; [lia|assumption|exact Hcb|reflexivity].
  - apply drains_first_iterator; [lia|assumption|exact Hd].
Qed.

(** X7. [get_account] through the failures. The generator
    [get_accounts_list] produces the accounts [xs]; its invocations fail
    as in the schedules that the budget covers ([k] calls, then [m]
    producers cut at arbitrary points, [k + m < 4]). Then [get_account]
    returns the first account of [xs] with the identifier, and [None]
    when [xs] has none: the failures do not show. *)
Theorem get_account_is_first_match (xs : list V) (id : string) (k m : nat) :
  (forall x, In x xs -> agree x x) ->
  exc_check StopIteration = false ->
  Z.of_nat (k + m) < default_tries ->
  (forall j, (j < k)%nat -> transient_call (cb j)) ->
  (forall j, (j < m)%nat -> transient_attempt xs (cb (k + j))) ->
  cb (k + m) = CallReturn (producer xs) ->
  forall fuel, (List.length xs < fuel)%nat ->
    fst (get_account id fuel) =
    Some (Return (find (fun a => String.eqb (get_id a) id) xs)).
Proof.
  intros Hag Hstop Hbudget Hcalls Hfail Hok fuel Hfuel.
  destruct (schedule_drains Hag Hstop Hbudget Hcalls Hfail Hok)
    as (s0 & s' & Hw & Hd & _).
  unfold get_account. rewrite Hw.
  pose proof (@get_account_loop_finds id fuel s0 xs StopIteration s'
                (Hd fuel Hfuel)) as Hfind.
  destruct (get_account_loop fuel id s0) as [res s1]. simpl in *.
  rewrite Hfind.
  destruct (find (fun a => String.eqb (get_id a) id) xs); reflexivity.
Qed.

(** X8. [get_account] stops at the first match. When the iterator the
    generator returns (after [k] transient failures of the call) gives an
    account with the identifier after accounts [pre] without it,
    [get_account] returns that account after [k + 1] invocations: what the
    iterator would do next (fail, end, give other accounts) and the later
    invocations play no part. *)
Theorem get_account_stops_at_first_match
    (id : string) (k : nat) (pre : list V) (a : V) (rest : list (event V)) :
  Z.of_nat k < default_tries ->
  (forall j, (j < k)%nat -> transient_call (cb j)) ->
  cb k = CallReturn (PyIter (map (@EvYield V) pre ++ EvYield a :: rest)) ->
  Forall (fun x => String.eqb (get_id x) id = false) pre ->
  String.eqb (get_id a) id = true ->
  forall fuel, (List.length pre < fuel)%nat ->
    get_account id fuel = (Some (Return (Some a)), S k).
Proof.
  intros Hk Hcalls Hcb Hpre Ha fuel Hfuel.
  unfold get_account.
  rewrite (@wrapper_resumable k default_tries _ Hk Hcalls Hcb eq_refl).
  rewrite get_account_loop_stops; auto. lia.
Qed.

(** ** [go_on_accounts_list] *)

Lemma try_account_urls_keeps (candidates : list string) : forall b r b',
  try_account_urls candidates b = (r, b') ->
  match r with
  | None => exists t, In t candidates /\ ACCOUNT_URLS b' = [t]
  | Some _ => ACCOUNT_URLS b' = ACCOUNT_URLS b
  end.
Proof.
  induction candidates as [|t rest IH]; intros b r b' H; simpl in H.
  - inversion H; subst. reflexivity.
  - destruct (start_task true t (session b)) as [[e|] p] eqn:E1.
    + inversion H; subst. reflexivity.
    + destruct (page_is_error p) eqn:Eerr; simpl in H.
      * specialize (IH _ _ _ H). simpl in IH.
        destruct r; [assumption|].
        destruct IH as (t' & Hin & Hu). exists t'. simpl. auto.
      * destruct (page_pop_up p).
        -- destruct (start_task false t p) as [[e|] p'];
             inversion H; subst; [reflexivity|].
           exists t. simpl. auto.
        -- inversion H; subst. exists t. simpl. auto.
Qed.

Lemma account_urls_narrow (b : accounts_browser P) b' :
  go_on_accounts_list b = (None, b') ->
  exists t, In t (ACCOUNT_URLS b) /\ ACCOUNT_URLS b' = [t].
Proof.
  unfold go_on_accounts_list. intros H.
  destruct (try_account_urls (ACCOUNT_URLS b) b) as [[e|] b1] eqn:E;
    [discriminate|].
  pose proof (try_account_urls_keeps _ _ E) as Hk; simpl in Hk.
  rename Hk into Hone.
  destruct (page_is_short_list (session b1)).
  - destruct (submit_complete_list (session b1)) as [r1 p].
    inversion H; subst. simpl. assumption.
  - inversion H; subst. assumption.
Qed.

(** X9. What [go_on_accounts_list] leaves in [ACCOUNT_URLS]. When it
    returns normally, [ACCOUNT_URLS] holds exactly one task, taken from
    the candidates it held before; when it raises, [ACCOUNT_URLS] is
    unchanged or holds one of the candidates. It never holds a task that
    was not a candidate and never becomes empty unless it was. *)
Theorem account_urls_narrow_to_a_candidate (b : accounts_browser P) r b' :
  go_on_accounts_list b = (r, b') ->
  (r = None ->
   exists t, In t (ACCOUNT_URLS b) /\ ACCOUNT_URLS b' = [t]) /\
  (ACCOUNT_URLS b' = ACCOUNT_URLS b \/
   exists t, In t (ACCOUNT_URLS b) /\ ACCOUNT_URLS b' = [t]).
Proof.
  unfold go_on_accounts_list. intros H.
  destruct (try_account_urls (ACCOUNT_URLS b) b) as [[e|] b1] eqn:E;
    pose proof (try_account_urls_keeps _ _ E) as Hk; simpl in Hk.
  - inversion H; subst. split; [discriminate|]. now left.
  - rename Hk into Hone.
    destruct (page_is_short_list (session b1)).
    + destruct (submit_complete_list (session b1)) as [r1 p].
      inversion H; subst. simpl. split; auto.
    + inversion H; subst. split; auto.
Qed.

(** X10. No page for the accounts. When every candidate leads, without
    an exception, to an error page, [go_on_accounts_list] raises
    [BrokenPageError] and leaves [ACCOUNT_URLS] as it was; with no
    candidate at all it raises it without a request. *)
Theorem accounts_list_unreachable (b : accounts_browser P) :
  (forall t p, In t (ACCOUNT_URLS b) ->
     exists p', start_task true t p = (None, p') /\ page_is_error p' = true) ->
  exists b', go_on_accounts_list b = (Some BrokenPageError, b') /\
             ACCOUNT_URLS b' = ACCOUNT_URLS b /\
             (ACCOUNT_URLS b = [] -> b' = b).
Proof.
  intros Hsite. unfold go_on_accounts_list.
  assert (Hloop : forall candidates b0,
             (forall t, In t candidates -> In t (ACCOUNT_URLS b)) ->
             exists b', try_account_urls candidates b0 =
                        (Some BrokenPageError, b') /\
                        ACCOUNT_URLS b' = ACCOUNT_URLS b0 /\
                        (candidates = [] -> b' = b0)).
  { induction candidates as [|t rest IH]; intros b0 Hin; simpl.
    - exists b0. auto.
    - destruct (Hsite t (session b0)) as (p' & Hgo & Herr);
        [apply Hin; now left|].
      rewrite Hgo, Herr. simpl.
      destruct (IH (mk_accounts_browser (ACCOUNT_URLS b0) p')) as (b' & Hr & Hu & _).
      { intros t' Ht'. apply Hin. now right. }
      exists b'. repeat split; auto. discriminate. }
  destruct (Hloop (ACCOUNT_URLS b) b) as (b' & Hr & Hu & Hempty); [auto|].
  exists b'. rewrite Hr. auto.
Qed.

(** X11. The task that worked is the only one tried afterwards. After a
    normal return [ACCOUNT_URLS] holds one task [t]; if, at a later call,
    the request for [t] leads to an error page, [go_on_accounts_list]
    raises [BrokenPageError] after that single request: the other tasks of
    the class are not tried again. *)
Theorem kept_task_is_the_only_one_tried_again (b b1 : accounts_browser P) :
  go_on_accounts_list b = (None, b1) ->
  exists t, In t (ACCOUNT_URLS b) /\ ACCOUNT_URLS b1 = [t] /\
    forall b2 p,
      ACCOUNT_URLS b2 = ACCOUNT_URLS b1 ->
      start_task true t (session b2) = (None, p) ->
      page_is_error p = true ->
      go_on_accounts_list b2 =
      (Some BrokenPageError, mk_accounts_browser [t] p).
Proof.
  intros H.
  destruct (@account_urls_narrow b b1 H) as (t & Hin & Hu).
  exists t. repeat split; auto.
  intros b2 p Hb2 Hgo Herr.
  unfold go_on_accounts_list. rewrite Hb2, Hu. simpl.
  rewrite Hgo, Herr. simpl. rewrite Hb2, Hu. reflexivity.
Qed.

(** ** [get_invest_history] *)

Section SortDesc.

Variables K A : Type.
Variable ltb : K -> K -> bool.
Variable key : A -> K.
Hypothesis ltb_asym : forall a b, ltb a b = true -> ltb b a = false.
Hypothesis geb_trans :
  forall a b c, ltb a b = false -> ltb b c = false -> ltb a c = false.

Lemma insert_desc_perm x (l : list A) :
  Permutation.Permutation (insert_desc ltb key x l) (x :: l).
Proof.
  induction l as [|y l IH]; simpl; [reflexivity|].
  destruct (ltb (key x) (key y)); [|reflexivity].
  rewrite IH. apply Permutation.perm_swap.
Qed.

Lemma sort_desc_perm (l : list A) :
  Permutation.Permutation (sort_desc ltb key l) l.
Proof.
  induction l as [|x l IH]; simpl; [reflexivity|].
  rewrite insert_desc_perm. now constructor.
Qed.

Lemma insert_desc_sorted x (l : list A) :
  StronglySorted (fun a b => ltb (key a) (key b) = false) l ->
  StronglySorted (fun a b => ltb (key a) (key b) = false)
                 (insert_desc ltb key x l).
Proof.
  induction 1 as [|y l Hl IH Hy]; simpl.
  - repeat constructor.
  - destruct (ltb (key x) (key y)) eqn:E.
    + constructor; [assumption|].
      rewrite Forall_forall in *. intros z Hz.
      apply (Permutation.Permutation_in _ (insert_desc_perm x l)) in Hz.
      destruct Hz as [<-|Hz]; [now apply ltb_asym|now apply Hy].
    + constructor; [now constructor|].
      constructor; [assumption|].
      rewrite Forall_forall in *. intros z Hz.
      apply geb_trans with (b := key y); auto.
Qed.

Lemma sort_desc_sorted (l : list A) :
  StronglySorted (fun a b => ltb (key a) (key b) = false)
                 (sort_desc ltb key l).
Proof.
  induction l as [|x l IH]; simpl; [constructor|].
  now apply insert_desc_sorted.
Qed.

Variable keyb : K -> K -> bool.

(** Records of one key stay in the order they had. *)
Lemma insert_desc_stable k x (l : list A) :
  (forall y, keyb (key y) k = true -> keyb (key x) k = true ->
             ltb (key x) (key y) = false) ->
  filter (fun z => keyb (key z) k) (insert_desc ltb key x l) =
  filter (fun z => keyb (key z) k) (x :: l).
Proof.
  intros Hsame. induction l as [|y l IH]; [reflexivity|].
  cbn [insert_desc]. destruct (ltb (key x) (key y)) eqn:E; [|reflexivity].
  cbn [filter] in *. rewrite IH.
  destruct (keyb (key x) k) eqn:Ex; [|reflexivity].
  destruct (keyb (key y) k) eqn:Ey; [|reflexivity].
  rewrite (Hsame y Ey eq_refl) in E. discriminate E.
Qed.

Lemma sort_desc_stable k (l : list A) :
  (forall x y, keyb (key y) k = true -> keyb (key x) k = true ->
               ltb (key x) (key y) = false) ->
  filter (fun z => keyb (key z) k) (sort_desc ltb key l) =
  filter (fun z => keyb (key z) k) l.
Proof.
  intros Hsame. induction l as [|x l IH]; [reflexivity|].
  cbn [sort_desc]. rewrite insert_desc_stable by (intros y; apply Hsame).
  cbn [filter]. now rewrite IH.
Qed.

End SortDesc.

Lemma date_ltb_lt (d1 d2 : date) :
  date_ltb d1 d2 = true <->
  (year d1 < year d2 \/
   (year d1 = year d2 /\
    (month d1 < month d2 \/ (month d1 = month d2 /\ day d1 < day d2)))).
Proof.
  unfold date_ltb.
  destruct (Z.ltb_spec (year d1) (year d2)), (Z.eqb_spec (year d1) (year d2)),
    (Z.ltb_spec (month d1) (month d2)), (Z.eqb_spec (month d1) (month d2)),
    (Z.ltb_spec (day d1) (day d2));
    simpl; split; intros Hlt; try reflexivity; try discriminate;
    try lia; exfalso; lia.
Qed.

Lemma date_ltb_ge (d1 d2 : date) :
  date_ltb d1 d2 = false <->
  ~ (year d1 < year d2 \/
     (year d1 = year d2 /\
      (month d1 < month d2 \/ (month d1 = month d2 /\ day d1 < day d2)))).
Proof.
  rewrite <- date_ltb_lt. destruct (date_ltb d1 d2); split; intros H;
    try reflexivity; try discriminate; try (intros H'; discriminate H').
  exfalso. now apply H.
Qed.

Lemma date_eqb_eq (d1 d2 : date) : date_eqb d1 d2 = true -> d1 = d2.
Proof.
  unfold date_eqb. rewrite !andb_true_iff, !Z.eqb_eq.
  destruct d1, d2; simpl. intros [[-> ->] ->]. reflexivity.
Qed.

Lemma date_ltb_irrefl (d : date) : date_ltb d d = false.
Proof. rewrite date_ltb_ge. lia. Qed.

Lemma date_ltb_asym (d1 d2 : date) :
  date_ltb d1 d2 = true -> date_ltb d2 d1 = false.
Proof. rewrite date_ltb_lt, date_ltb_ge. lia. Qed.

Lemma date_geb_trans (d1 d2 d3 : date) :
  date_ltb d1 d2 = false -> date_ltb d2 d3 = false -> date_ltb d1 d3 = false.
Proof. rewrite !date_ltb_ge. lia. Qed.

Lemma date_geb_year (d1 d2 : date) :
  date_ltb d1 d2 = false -> year d2 <= year d1.
Proof. rewrite date_ltb_ge. lia. Qed.

(** In a list by decreasing year, the records of a year come before
    those of the smaller years. *)
Lemma filter_year_then_smaller (y : Z) (ys : list Z) (l : list V) :
  (forall y', In y' ys -> y' < y) ->
  StronglySorted (fun a b => year (tr_date b) <= year (tr_date a)) l ->
  filter (fun tr => year (tr_date tr) =? y) l ++
  filter (fun tr => existsb (Z.eqb (year (tr_date tr))) ys) l =
  filter (fun tr => existsb (Z.eqb (year (tr_date tr))) (y :: ys)) l.
Proof.
  intros Hys. induction 1 as [|x l Hl IH Hx]; simpl; [reflexivity|].
  destruct (year (tr_date x) =? y) eqn:Ey; simpl.
  - apply Z.eqb_eq in Ey.
    replace (existsb (Z.eqb (year (tr_date x))) ys) with false.
    + simpl in IH. now rewrite IH.
    + symmetry. apply not_true_is_false. intros Hex.
      apply existsb_exists in Hex. destruct Hex as (y' & Hin & He).
      apply Z.eqb_eq in He. specialize (Hys _ Hin). lia.
  - destruct (existsb (Z.eqb (year (tr_date x))) ys) eqn:Eq.
    + apply existsb_exists in Eq. destruct Eq as (y' & Hin & He).
      apply Z.eqb_eq in He. specialize (Hys _ Hin).
      assert (Hnone : forall z, In z l -> (year (tr_date z) =? y) = false).
      { rewrite Forall_forall in Hx. intros z Hz. specialize (Hx z Hz).
        apply Z.eqb_neq. lia. }
      replace (filter (fun tr => year (tr_date tr) =? y) l) with (@nil V).
      * simpl. f_equal. apply filter_ext_in. intros z Hz.
        simpl. now rewrite (Hnone z Hz).
      * symmetry. clear - Hnone. induction l as [|z l IHl]; simpl; [reflexivity|].
        rewrite (Hnone z) by now left. apply IHl.
        intros z' Hz'. apply Hnone. now right.
    + simpl in IH. exact IH.
Qed.

Lemma history_by_year_without_pdf (pdf : Z -> pdf_result V) (l : list V) :
  StronglySorted (fun a b => year (tr_date b) <= year (tr_date a)) l ->
  forall ys,
    StronglySorted (fun a b => b < a) ys ->
    (forall y, In y ys ->
       exists e, pdf y = PdfGoRaises e /\ is_HTTPNotFound e = true) ->
    history_by_year pdf l ys =
    map (@EvYield V)
        (filter (fun tr => existsb (Z.eqb (year (tr_date tr))) ys) l).
Proof.
  intros Hl. induction 1 as [|y ys Hys IH Hy]; intros Hpdf.
  - simpl. induction l as [|x l' IHl]; [reflexivity|].
    simpl. apply IHl. now inversion Hl.
  - cbn [history_by_year].
    destruct (Hpdf y) as (e & Hgo & He); [now left|].
    rewrite Hgo, He, IH by (intros y' Hy'; apply Hpdf; now right).
    rewrite <- map_app. f_equal.
    apply filter_year_then_smaller; [|assumption].
    rewrite Forall_forall in Hy. exact Hy.
Qed.

Lemma filter_all (A : Type) (f : A -> bool) (l : list A) :
  (forall x, In x l -> f x = true) -> filter f l = l.
Proof.
  induction l as [|x l IH]; intros H; simpl; [reflexivity|].
  rewrite H by now left. f_equal. apply IH. intros y Hy. apply H. now right.
Qed.

Lemma strictly_decreasing (l : list Z) :
  StronglySorted (fun a b => Z.ltb a b = false) l -> NoDup l ->
  StronglySorted (fun a b => b < a) l.
Proof.
  induction 1 as [|y l Hl IH Hy]; intros Hnd; constructor.
  - apply IH. now inversion Hnd.
  - inversion Hnd as [|? ? Hnotin _]; subst.
    rewrite Forall_forall in *. intros z Hz. specialize (Hy z Hz).
    apply Z.ltb_ge in Hy.
    assert (z <> y) by (intros ->; contradiction). lia.
Qed.

(** X12. The history without PDF. When the browser reaches the contract
    and no yearly statement exists (the request of each year raises
    [HTTPNotFound]), [get_invest_history] yields the transactions of the
    JSON history and nothing else: each of them once, from the latest date
    to the earliest, transactions of the same date in the order of the
    JSON. *)
Theorem history_without_pdf_is_the_json_sorted
    (history : list V) (pdf : Z -> pdf_result V) :
  (forall tr, In tr history ->
     exists e, pdf (year (tr_date tr)) = PdfGoRaises e /\
               is_HTTPNotFound e = true) ->
  let yielded := sort_desc date_ltb tr_date history in
  get_invest_history (Return true) true (Return history) pdf =
  map (@EvYield V) yielded /\
  Permutation.Permutation yielded history /\
  StronglySorted
    (fun a b => date_ltb (tr_date a) (tr_date b) = false) yielded /\
  (forall d, filter (fun tr => date_eqb (tr_date tr) d) yielded =
             filter (fun tr => date_eqb (tr_date tr) d) history).
Proof.
  intros Hpdf yielded.
  assert (Hstable : forall d,
             filter (fun tr => date_eqb (tr_date tr) d) yielded =
             filter (fun tr => date_eqb (tr_date tr) d) history).
  { intros d. apply sort_desc_stable. intros x y Hy Hx.
    apply date_eqb_eq in Hx, Hy. rewrite Hx, Hy. apply date_ltb_irrefl. }
  cut (get_invest_history (Return true) true (Return history) pdf =
       map (@EvYield V) yielded /\
       Permutation.Permutation yielded history /\
       StronglySorted
         (fun a b => date_ltb (tr_date a) (tr_date b) = false) yielded);
    [intros (H1 & H2 & H3); repeat split; assumption|].
  assert (Hsorted : StronglySorted
            (fun a b => date_ltb (tr_date a) (tr_date b) = false) yielded).
  { apply sort_desc_sorted; [apply date_ltb_asym|apply date_geb_trans]. }
  assert (Hperm : Permutation.Permutation yielded history)
    by apply sort_desc_perm.
  split; [|split; assumption].
  unfold get_invest_history. cbv zeta. fold yielded.
  set (years := sort_desc Z.ltb (fun y : Z => y)
                  (nodup Z.eq_dec
                     (map (fun item => year (tr_date item)) yielded))).
  assert (Hin : forall y, In y years <->
                          In y (map (fun item => year (tr_date item)) yielded)).
  { intros y. unfold years. split; intros Hy.
    - apply (Permutation.Permutation_in _ (sort_desc_perm _ _ _)) in Hy.
      now apply nodup_In in Hy.
    - apply (Permutation.Permutation_in
               (l := nodup Z.eq_dec
                       (map (fun item => year (tr_date item)) yielded)));
        [symmetry; apply sort_desc_perm|now apply nodup_In]. }
  rewrite history_by_year_without_pdf.
  - f_equal. apply filter_all. intros tr Htr.
    apply existsb_exists. exists (year (tr_date tr)).
    split; [|apply Z.eqb_refl]. apply Hin.
    now apply (in_map (fun item => year (tr_date item))).
  - clear - Hsorted. induction Hsorted as [|x l Hl IH Hx]; constructor; auto.
    rewrite Forall_forall in *. intros z Hz. now apply date_geb_year, Hx.
  - apply strictly_decreasing.
    + apply sort_desc_sorted.
      * intros a b. rewrite Z.ltb_lt, Z.ltb_ge. lia.
      * intros a b c. rewrite !Z.ltb_ge. lia.
    + apply (Permutation.Permutation_NoDup (l := nodup Z.eq_dec
               (map (fun item => year (tr_date item)) yielded))).
      * symmetry. apply sort_desc_perm.
      * apply NoDup_nodup.
  - intros y Hy. apply Hin in Hy. apply in_map_iff in Hy.
    destruct Hy as (tr & <- & Htr). apply Hpdf.
    apply (Permutation.Permutation_in _ Hperm). exact Htr.
Qed.

(** ** Edges of the class that is retried and of the comparison *)

Lemma next_end_transient its r c :
  0 < r -> exc_check StopIteration = true ->
  __next__ (mk_iter_retry (PyIter []) its r c) =
  __next__ (mk_iter_retry PyNone its (r - 1) c).
Proof.
  intros Hr He. rewrite next_with_iterator by (simpl; auto).
  unfold return_one_item. simpl. rewrite He. reflexivity.
Qed.

Lemma end_of_data_retried (xs : list V) (m : nat) : forall c,
  (forall x, In x xs -> agree x x) ->
  exc_check StopIteration = true ->
  (forall j, (j < m)%nat -> cb (c + j) = CallReturn (producer xs)) ->
  drains (mk_iter_retry PyNone xs (Z.of_nat m) c) []
         (BrowserUnavailable DidNotReply)
         (mk_iter_retry PyNone xs 0 (c + m)).
Proof.
  induction m as [|m IH]; intros c Hag Hstop Hcb.
  - rewrite Nat.add_0_r. apply drains_raise. apply next_exhausted. simpl. lia.
  - eapply drains_same_next.
    + apply next_recreated with (its' := xs) (k := []); [lia| |].
      * rewrite app_nil_r, <- (Nat.add_0_r c). apply Hcb. lia.
      * now apply Forall2_agree_refl.
    + eapply drains_same_next; [apply next_end_transient; [lia|assumption]|].
      replace (Z.of_nat (S m) - 1) with (Z.of_nat m) by lia.
      replace (c + S m)%nat with (S c + m)%nat by lia.
      apply IH; auto.
      intros j Hj. replace (S c + j)%nat with (c + S j)%nat by lia.
      apply Hcb. lia.
Qed.

(** X13. The end of the data taken for a failure. When [StopIteration]
    is of the class that is retried (as with [Exception], the default of
    [iter_retry]) and every invocation returns the complete producer of
    [xs], the consumer gets [xs], and then, in place of the end of the
    sequence, 'Site did not reply successfully after multiple tries',
    once the function has been invoked [tries] times. *)
Theorem end_of_data_is_retried_when_in_class (xs : list V) (tries : Z) :
  (forall x, In x xs -> agree x x) ->
  exc_check StopIteration = true ->
  0 < tries ->
  (forall j, (j < Z.to_nat tries)%nat -> cb j = CallReturn (producer xs)) ->
  forall fuel, (List.length xs < fuel)%nat ->
    call_and_iterate tries fuel =
    GotRecords xs (Some (BrowserUnavailable DidNotReply)) (Z.to_nat tries).
Proof.
  intros Hag Hstop Ht Hcb fuel Hfuel.
  assert (Hcb0 : cb 0%nat = CallReturn (PyIter (map (@EvYield V) xs ++ [])))
    by (rewrite app_nil_r; apply Hcb; lia).
  pose proof (@end_of_data_retried xs (Z.to_nat tries - 1) 1 Hag Hstop) as Hd.
  replace (Z.to_nat tries) with (cb_calls
    (mk_iter_retry PyNone xs 0 (1 + (Z.to_nat tries - 1)))) by (simpl; lia).
  eapply call_and_iterate_resumable; [| |exact Hfuel].
  - apply wrapper_resumable with (k := 0%nat);
      [lia|intros j Hj; lia|exact Hcb0|reflexivity].
  - rewrite <- (app_nil_r xs) at 2.
    apply drains_yields; [lia|]. change ([] ++ xs) with xs.
    eapply drains_same_next; [apply next_end_transient; [lia|assumption]|].
    replace (tries - Z.of_nat 0 - 1) with (Z.of_nat (Z.to_nat tries - 1)) by lia.
    apply Hd. intros j Hj. apply Hcb. lia.
Qed.

(** X14. Records of two kinds. During the replay, when the record given
    again has [to_dict] and the item sent at its position has not, the
    comparison itself raises [AttributeError]; unless that is of the class
    retried, it goes to the caller in place of the inconsistency error,
    the budget untouched. *)
Theorem replay_of_mixed_records_raises_attribute_error
    (pre pre' : list V) (sent new : V) (dn : D) (post : list V)
    (k : list (event V)) (r : Z) (c : nat) :
  0 < r ->
  cb c = CallReturn (PyIter (map (@EvYield V) pre' ++ EvYield new :: k)) ->
  Forall2 agree pre pre' ->
  to_dict new = Some dn -> to_dict sent = None ->
  exc_check AttributeError = false ->
  __next__ (mk_iter_retry PyNone (pre ++ sent :: post) r c) =
  (Raise AttributeError,
   mk_iter_retry (PyIter k) (pre ++ sent :: post) r (S c)).
Proof.
  intros Hr Hcb Hag Hn Hs Hexc.
  rewrite next_running by (simpl; auto).
  unfold next_body. simpl. rewrite Hcb. simpl.
  rewrite replay_agree by assumption. simpl.
  unfold records_equal. rewrite Hn, Hs. simpl. rewrite Hexc. reflexivity.
Qed.

(** X15. A replay of exactly the items. When the recreated iterator
    gives again records that agree with all the items sent and then ends,
    the sequence ends normally: [StopIteration] goes to the consumer, and
    not the error of the short replay, the budget untouched. *)
Theorem replay_of_all_items_then_end_is_the_end
    (sent_items given : list V) (r : Z) (c : nat) :
  0 < r ->
  cb c = CallReturn (PyIter (map (@EvYield V) given)) ->
  Forall2 agree sent_items given ->
  exc_check StopIteration = false ->
  __next__ (mk_iter_retry PyNone sent_items r c) =
  (Raise StopIteration, mk_iter_retry (PyIter []) sent_items r (S c)).
Proof.
  intros Hr Hcb Hag Hstop.
  rewrite (@next_recreated sent_items given [] r c Hr); auto.
  - now apply next_stop.
  - now rewrite app_nil_r.
Qed.

(** ** [get_accounts_list] with and without the IBAN *)

Lemma yields_then_raise_inj (l l' : list V) (e e' : exn V) tail tail' :
  map (@EvYield V) l ++ EvRaise e :: tail =
  map (@EvYield V) l' ++ EvRaise e' :: tail' ->
  l = l' /\ e = e'.
Proof.
  revert l'. induction l as [|x l IH]; intros [|x' l'] H; simpl in H;
    try discriminate.
  - inversion H. auto.
  - inversion H; subst. destruct (IH _ H2). subst. auto.
Qed.

Lemma yields_not_raise (l l' : list V) (e : exn V) tail :
  map (@EvYield V) l = map (@EvYield V) l' ++ EvRaise e :: tail -> False.
Proof.
  revert l'. induction l as [|x l IH]; intros [|x' l'] H; simpl in H;
    try discriminate.
  inversion H; subst. eauto.
Qed.

Lemma yields_inj (l l' : list V) :
  map (@EvYield V) l = map (@EvYield V) l' -> l = l'.
Proof.
  revert l'. induction l as [|x l IH]; intros [|x' l'] H; simpl in H;
    try discriminate; [reflexivity|].
  inversion H; subst. f_equal. auto.
Qed.

(** The two modes visit the same pages: same requests, same end; what
    the plain mode yields is what the other appends to [accounts]. *)
Lemma visit_next_pages_modes (fuel : nat) :
  forall next_pages acc_plain acc_iban b,
    match visit_next_pages fuel false next_pages acc_plain b,
          visit_next_pages fuel true next_pages acc_iban b with
    | None, None => True
    | Some (sp, rp, ap, bp), Some (si, ri, ai, bi) =>
        rp = ri /\ bp = bi /\ si = [] /\ ap = acc_plain /\
        exists accs, sp = map (@EvYield V) accs /\ ai = acc_iban ++ accs
    | _, _ => False
    end.
Proof.
  induction fuel as [|fuel IH]; intros next_pages acc_plain acc_iban b;
    simpl; destruct (pop_last next_pages) as [[next_page next_pages']|].
  - exact I.
  - repeat split; auto. exists []. now rewrite app_nil_r.
  - destruct (go_to_next_page next_page b) as [[e|] b1].
    + repeat split; auto. exists []. now rewrite app_nil_r.
    + destruct (page_iter_accounts (session b1)) as [[accs [e|]] pushed].
      * repeat split; auto. exists accs. auto.
      * specialize (IH (next_pages' ++ pushed) acc_plain
                       (acc_iban ++ accs) b1).
        destruct (visit_next_pages fuel false (next_pages' ++ pushed)
                    acc_plain b1) as [[[[sp rp] ap] bp]|];
          destruct (visit_next_pages fuel true (next_pages' ++ pushed)
                      (acc_iban ++ accs) b1) as [[[[si ri] ai] bi]|];
          try contradiction; [|exact I].
        destruct IH as (Hr & Hb & Hs & Ha & accs1 & Hsp & Hai).
        subst. repeat split; auto.
        exists (accs ++ accs1). rewrite map_app, <- app_assoc. auto.
  - repeat split; auto. exists []. now rewrite app_nil_r.
Qed.

(** What the last loop yields: the accounts with their IBAN, in order, up
    to the first lookup that raises. *)
Lemma yield_with_iban_shape (accounts : list V) : forall p,
  exists ys tail,
    yield_with_iban accounts p = map (@EvYield V) ys ++ tail /\
    Forall2 (fun a y => exists iban, y = set_iban a iban)
            (firstn (List.length ys) accounts) ys /\
    ((tail = [] /\ List.length ys = List.length accounts) \/
     exists e, tail = [EvRaise e]).
Proof.
  induction accounts as [|a rest IH]; intros p; simpl.
  - exists [], []. repeat split; [constructor|]. left. auto.
  - destruct (get_iban_number a p) as [[iban|e] p'].
    + destruct (IH p') as (ys & tail & Hy & Hf & Ht).
      exists (set_iban a iban :: ys), tail. simpl. rewrite Hy.
      repeat split; auto.
      * constructor; eauto.
      * destruct Ht as [[-> Hl]|He]; [left|right]; auto.
    + exists [], [EvRaise e]. repeat split; [constructor|]. right. eauto.
Qed.

(** X16. Asking for the IBAN does not change the list. When
    [get_accounts_list(False)] yields the accounts [accs] and ends,
    [get_accounts_list(True)] on the same site yields these accounts in
    the same order, each with its [iban] attribute set, up to the first
    IBAN request that raises, if one does. *)
Theorem iban_mode_lists_the_same_accounts
    (fuel : nat) (b : accounts_browser P) (accs : list V) :
  get_accounts_list fuel false b = Some (map (@EvYield V) accs) ->
  exists ys tail,
    get_accounts_list fuel true b = Some (map (@EvYield V) ys ++ tail) /\
    Forall2 (fun a y => exists iban, y = set_iban a iban)
            (firstn (List.length ys) accs) ys /\
    ((tail = [] /\ List.length ys = List.length accs) \/
     exists e, tail = [EvRaise e]).
Proof.
  unfold get_accounts_list. intros H.
  destruct (go_on_accounts_list b) as [[e|] b1].
  - inversion H as [H1]. exfalso.
    apply (@yields_not_raise accs [] e []). simpl. now rewrite <- H1.
  - destruct (page_iter_accounts (session b1)) as [[accs0 [e|]] pushed].
    + inversion H as [H1]. exfalso.
      apply (@yields_not_raise accs accs0 e []). now rewrite <- H1.
    + pose proof (visit_next_pages_modes fuel pushed [] accs0 b1) as Hm.
      destruct (visit_next_pages fuel false pushed [] b1)
        as [[[[sp rp] ap] bp]|]; [|discriminate].
      destruct (visit_next_pages fuel true pushed accs0 b1)
        as [[[[si ri] ai] bi]|]; [|contradiction].
      destruct Hm as (Hr & Hb & Hs & Ha & accs1 & Hsp & Hai). subst.
      destruct ri as [e|].
      * inversion H as [H1]. exfalso.
        apply (@yields_not_raise accs (accs0 ++ accs1) e []).
        rewrite <- H1, map_app, <- app_assoc. reflexivity.
      * inversion H as [H1]. rewrite <- map_app in H1.
        apply yields_inj in H1. subst accs.
        destruct (yield_with_iban_shape (accs0 ++ accs1) (session bi))
          as (ys & tail & Hy & Hf & Ht).
        exists ys, tail. simpl. rewrite Hy. auto.
Qed.

(** X17. With the IBAN, nothing is yielded while the pages are read.
    When [get_accounts_list(False)] yields some accounts and is then
    stopped by an exception, [get_accounts_list(True)] on the same site
    raises that exception without having yielded anything. *)
Theorem iban_mode_yields_nothing_when_listing_fails
    (fuel : nat) (b : accounts_browser P) (accs : list V) (e : exn V) :
  get_accounts_list fuel false b = Some (map (@EvYield V) accs ++ [EvRaise e]) ->
  get_accounts_list fuel true b = Some [EvRaise e].
Proof.
  unfold get_accounts_list. intros H.
  destruct (go_on_accounts_list b) as [[e0|] b1].
  - inversion H as [H1].
    destruct (@yields_then_raise_inj [] accs e0 e [] [] H1) as (_ & <-).
    reflexivity.
  - destruct (page_iter_accounts (session b1)) as [[accs0 [e0|]] pushed].
    + inversion H as [H1].
      destruct (@yields_then_raise_inj accs0 accs e0 e [] [] H1) as (_ & <-).
      reflexivity.
    + pose proof (visit_next_pages_modes fuel pushed [] accs0 b1) as Hm.
      destruct (visit_next_pages fuel false pushed [] b1)
        as [[[[sp rp] ap] bp]|]; [|discriminate].
      destruct (visit_next_pages fuel true pushed accs0 b1)
        as [[[[si ri] ai] bi]|]; [|contradiction].
      destruct Hm as (Hr & Hb & Hs & Ha & accs1 & Hsp & Hai). subst.
      destruct ri as [e0|].
      * inversion H as [H1]. rewrite app_assoc, <- map_app in H1.
        destruct (@yields_then_raise_inj _ accs e0 e [] [] H1) as (_ & <-).
        reflexivity.
      * inversion H as [H1]. exfalso. rewrite <- map_app in H1.
        apply (@yields_not_raise (accs0 ++ accs1) accs e []). exact H1.
Qed.

End Engine.

(** ** The scenarios *)

Import Scenario.

(** Every record of a concrete list agrees with itself. *)
Ltac each_record_agrees :=
  let x := fresh "x" in
  let Hx := fresh "Hx" in
  intros x Hx; simpl in Hx; decompose [or] Hx; subst;
  try reflexivity; contradiction.

(** The invocation raises [LoggedOut]. *)
Ltac raises_logged_out := exists LoggedOut; split; reflexivity.

(** The invocation returns the producer, cut after [n] records by
    [LoggedOut]. *)
Ltac cut_after n :=
  exists n, LoggedOut, (@nil (event record)); repeat split; simpl; lia.

Lemma no_duplication_in_order_witness :
  call_and_iterate to_dict dict_eqb py_eqb is_LoggedOut recovering 4 5 =
  GotRecords [A; B; C; D] (Some StopIteration) 4.
Proof.
  apply (@no_duplication_in_order _ _ to_dict dict_eqb py_eqb is_LoggedOut
           recovering [A; B; C; D] 4 1 2).
  - each_record_agrees.
  - reflexivity.
  - lia.
  - intros j Hj. assert (j = 0)%nat by lia. subst j. raises_logged_out.
  - intros [|[|j]] Hj; [| |lia].
    + cut_after 2%nat.
    + cut_after 1%nat.
  - reflexivity.
  - simpl. lia.
Defined.

Lemma budget_exhaustion_witness :
  exists n, (n <= 4)%nat /\
    forall fuel, (n < fuel)%nat ->
      call_and_iterate to_dict dict_eqb py_eqb is_LoggedOut always_failing 4 fuel =
      GotRecords (firstn n [A; B; C; D])
                 (Some (BrowserUnavailable DidNotReply)) 4 /\
      recreations to_dict dict_eqb py_eqb is_LoggedOut always_failing 4 fuel =
      2%nat.
Proof.
  apply (@budget_exhaustion _ _ to_dict dict_eqb py_eqb is_LoggedOut
           always_failing [A; B; C; D] 4 1).
  - each_record_agrees.
  - intros j Hj. assert (j = 0)%nat by lia. subst j. raises_logged_out.
  - intros [|j] Hj; [lia|].
    cut_after 2%nat.
Defined.

(** C4 as the claim states it fails on the code. In [recreation_refused]
    every attempt raises the transient exception [LoggedOut]: the first
    while the producer of [A; B] is iterated, after [A], the later ones in
    the call. With a budget of 4 the consumer gets [A] and then
    [LoggedOut] itself, after 2 invocations of which 1 is a recreation:
    the exception of the invocation that recreates the producer is not
    caught, and the exhaustion error is never raised. And where the
    exhaustion error is raised, in [failing_each_time] with a budget of
    4, the function has been invoked 4 times, of which 3 are recreations
    of the producer and not 4. *)
Lemma budget_exhaustion_counterexample :
  (forall j,
     transient_call is_LoggedOut (recreation_refused j) \/
     transient_attempt is_LoggedOut [A; B] (recreation_refused j)) /\
  (forall fuel, (1 < fuel)%nat ->
     call_and_iterate to_dict dict_eqb py_eqb is_LoggedOut
                      recreation_refused 4 fuel =
     GotRecords [A] (Some LoggedOut) 2 /\
     recreations to_dict dict_eqb py_eqb is_LoggedOut
                 recreation_refused 4 fuel = 1%nat) /\
  ~ (exists n, forall fuel, (n < fuel)%nat ->
       call_and_iterate to_dict dict_eqb py_eqb is_LoggedOut
                        recreation_refused 4 fuel =
       GotRecords (firstn n [A; B])
                  (Some (BrowserUnavailable DidNotReply)) 4) /\
  (forall j, transient_attempt is_LoggedOut [A; B] (failing_each_time j)) /\
  (forall fuel, (1 < fuel)%nat ->
     call_and_iterate to_dict dict_eqb py_eqb is_LoggedOut
                      failing_each_time 4 fuel =
     GotRecords [A] (Some (BrowserUnavailable DidNotReply)) 4 /\
     recreations to_dict dict_eqb py_eqb is_LoggedOut
                 failing_each_time 4 fuel = 3%nat).
Proof.
  assert (Hrun : forall fuel, (1 < fuel)%nat ->
            call_and_iterate to_dict dict_eqb py_eqb is_LoggedOut
                             recreation_refused 4 fuel =
            GotRecords [A] (Some LoggedOut) 2 /\
            recreations to_dict dict_eqb py_eqb is_LoggedOut
                        recreation_refused 4 fuel = 1%nat).
  { intros [|[|fuel]] Hfuel; [lia|lia|]. split; reflexivity. }
  split; [|split; [exact Hrun|split; [|split]]].
  - intros [|j].
    + right. cut_after 1%nat.
    + left. raises_logged_out.
  - intros (n & Hn).
    destruct (Hrun (S (S n))) as (Hgot & _); [lia|].
    rewrite Hn in Hgot by lia. discriminate Hgot.
  - intros j. cut_after 1%nat.
  - intros [|[|fuel]] Hfuel; [lia|lia|]. split; reflexivity.
Qed.

Lemma single_value_three_failures_witness :
  call_and_iterate to_dict dict_eqb py_eqb is_LoggedOut fourth_time
                   default_tries 0 =
  GotValue (PyValue A) 4 /\
  call_and_iterate to_dict dict_eqb py_eqb is_LoggedOut never
                   default_tries 0 =
  GotRecords [] (Some (BrowserUnavailable DidNotReply)) 4.
Proof.
  split.
  - apply (@single_value_three_failures _ _ to_dict dict_eqb py_eqb
             is_LoggedOut fourth_time (PyValue A)); try reflexivity.
    intros [|[|[|j]]] Hj; try lia; raises_logged_out.
  - apply (@single_value_three_failures _ _ to_dict dict_eqb py_eqb
             is_LoggedOut never (PyValue A)).
    + intros j Hj. raises_logged_out.
    + raises_logged_out.
Defined.

Lemma shared_budget_witness :
  (exists s,
     fst (wrapper is_LoggedOut recovering 4) = Return (Resumable s) /\
     remaining s = 3 /\
     it s = PyIter [EvYield A; EvYield B; EvRaise LoggedOut] /\
     items s = []) /\
  call_and_iterate to_dict dict_eqb py_eqb is_LoggedOut recovering 4 5 =
  GotRecords [A; B; C; D] (Some StopIteration) 4.
Proof.
  destruct (@shared_budget _ _ to_dict dict_eqb py_eqb is_LoggedOut
              recovering [A; B; C; D] 4 1) as (Hinit & Hrec & _).
  - each_record_agrees.
  - reflexivity.
  - lia.
  - intros j Hj. assert (j = 0)%nat by lia. subst j. raises_logged_out.
  - split.
    + apply (Hinit (PyIter [EvYield A; EvYield B; EvRaise LoggedOut]));
        reflexivity.
    + apply (Hrec 2%nat).
      * lia.
      * intros [|[|j]] Hj; [| |lia].
        -- cut_after 2%nat.
        -- cut_after 1%nat.
      * reflexivity.
      * simpl. lia.
Defined.

Lemma inconsistent_replay_fails_witness :
  for_loop to_dict dict_eqb py_eqb is_LoggedOut inconsistent 3
           (mk_iter_retry PyNone [A; B] 3 1) =
  ([], Some (BrowserUnavailable (RepliedInconsistently B X)),
   mk_iter_retry (PyIter [EvYield C; EvYield D]) [A; B] 3 2).
Proof.
  apply (@inconsistent_replay_fails _ _ to_dict dict_eqb py_eqb is_LoggedOut
           inconsistent [A] [A] B X [] [EvYield C; EvYield D] 3 1).
  - lia.
  - reflexivity.
  - repeat constructor.
  - reflexivity.
  - reflexivity.
  - lia.
Defined.

Lemma short_replay_fails_witness :
  __next__ to_dict dict_eqb py_eqb is_LoggedOut shorter
           (mk_iter_retry PyNone [A; B] 3 1) =
  (Raise (BrowserUnavailable (RepliedFewer 2 2)),
   mk_iter_retry (PyIter []) [A; B] 3 2).
Proof.
  apply (@short_replay_fails _ _ to_dict dict_eqb py_eqb is_LoggedOut
           shorter [A] [A] B [] 3 1).
  - lia.
  - reflexivity.
  - repeat constructor.
Defined.

Lemma other_exceptions_propagate_witness :
  wrapper is_LoggedOut (fun _ => CallRaise (OtherException "HTTPNotFound")) 4 =
  (Raise (OtherException (V := record) "HTTPNotFound"), 1%nat) /\
  __next__ to_dict dict_eqb py_eqb is_LoggedOut recovering
    (mk_iter_retry (PyIter [EvRaise (OtherException "HTTPNotFound")]) [A] 3 1) =
  (Raise (OtherException "HTTPNotFound"), mk_iter_retry (PyIter []) [A] 3 1).
Proof.
  destruct (@other_exceptions_propagate _ _ to_dict dict_eqb py_eqb
              is_LoggedOut
              (fun _ => CallRaise (OtherException "HTTPNotFound"))
              (OtherException "HTTPNotFound") eq_refl)
    as (Hw & _).
  destruct (@other_exceptions_propagate _ _ to_dict dict_eqb py_eqb
              is_LoggedOut recovering
              (OtherException "HTTPNotFound") eq_refl)
    as (_ & Hn & _).
  split.
  - apply (Hw 0%nat 4); [lia| |reflexivity]. intros j Hj. lia.
  - apply Hn. lia.
Defined.

Lemma replay_compares_by_to_dict_or_eq_witness :
  replay to_dict dict_eqb py_eqb 0 [A; B; C]
         (PyIter [EvYield A; EvYield X; EvYield C]) =
  (Some (BrowserUnavailable (RepliedInconsistently B X), 1%nat),
   PyIter [EvYield C]) /\
  replay to_dict dict_eqb py_eqb 0 [A; Str "b"; C]
         (PyIter [EvYield A; EvYield (Str "b"); EvYield C]) =
  (None, PyIter []).
Proof.
  split.
  - destruct (@replay_compares_by_to_dict_or_eq _ _ to_dict dict_eqb py_eqb
                [A] [A] B X [C] [EvYield C]) as (Hd & _).
    + repeat constructor.
    + apply (Hd [("id", "B"); ("label", "Livret")]
                [("id", "X"); ("label", "Livret")])%string; reflexivity.
  - destruct (@replay_compares_by_to_dict_or_eq _ _ to_dict dict_eqb py_eqb
                [A] [A] (Str "b") (Str "b") [C] [EvYield C]) as (_ & He).
    + repeat constructor.
    + apply He. reflexivity.
Defined.

Lemma login_counter_scoped_witness :
  exists r states b',
    do_login_observed location page_login login_page_is_here visitor =
    ((r, states), b') /\
    do_login location page_login login_page_is_here visitor = (r, b') /\
    hd_error states = Some (set_no_login visitor 1) /\
    Forall (fun b'' => 0 < no_login b'' /\ no_login b'' = 1) states /\
    b' = set_no_login (last states visitor)
                      (no_login (last states visitor) - 1) /\
    no_login b' = 0.
Proof.
  apply (@login_counter_scoped record page_kind location page_login
           login_page_is_here visitor).
  - reflexivity.
  - reflexivity.
  - simpl. lia.
Defined.

(** The login of [visitor], whose password is refused: the body goes
    through four states, all with the counter at 1, and the browser is
    left on the login page with the counter back at 0. *)
Example login_observed_from_the_call :
  do_login_observed location page_login login_page_is_here visitor =
  ((Some BrowserIncorrectPassword,
    [ mk_browser 1 "https://www.ibps.example" "12345678" "guess" NoPage;
      mk_browser 1 "https://www.ibps.example" "12345678" "guess" LoginPage;
      mk_browser 1 "https://www.ibps.example" "12345678" "guess" LoginPage;
      mk_browser 1 "https://www.ibps.example" "12345678" "guess" LoginPage ]),
   mk_browser 0 "https://www.ibps.example" "12345678" "guess" LoginPage).
Proof. vm_compute. reflexivity. Qed.

Lemma wrong_credentials_not_retried_witness :
  do_login location page_login login_page_is_here visitor =
  (Some BrowserIncorrectPassword,
   mk_browser 0 "https://www.ibps.example" "12345678" "guess" LoginPage) /\
  wrapper is_LoggedOut locked_out 4 = (Raise BrowserIncorrectPassword, 2%nat) /\
  __next__ to_dict dict_eqb py_eqb is_LoggedOut locked_out
           (mk_iter_retry PyNone [A] 3 1) =
  (Raise BrowserIncorrectPassword, mk_iter_retry PyNone [A] 3 2).
Proof.
  destruct (@wrong_credentials_not_retried _ _ to_dict dict_eqb py_eqb
              is_LoggedOut locked_out page_kind location page_login
              login_page_is_here visitor
              (mk_browser 1 "https://www.ibps.example" "12345678" "guess" LoginPage)
              (mk_browser 1 "https://www.ibps.example" "12345678" "guess" LoginPage))
    as (Hlogin & Hw & Hn); try reflexivity.
  split; [exact Hlogin|]. split.
  - apply (Hw 1%nat 4); [lia| |reflexivity]. intros j Hj.
    assert (j = 0)%nat by lia. subst j. raises_logged_out.
  - apply Hn; [lia|reflexivity].
Defined.

(** ** The scenarios, run from the call to the end of the iteration *)

(** The producer fails after [A; B]; recreated, it gives [A; B; C; D]: the
    consumer gets [A; B; C; D], after two invocations. *)
Example resumes_after_two_records :
  call_and_iterate to_dict dict_eqb py_eqb is_LoggedOut
    (fun n => match n with
              | 0%nat => CallReturn (PyIter [EvYield A; EvYield B; EvRaise LoggedOut])
              | _ => CallReturn (PyIter [EvYield A; EvYield B; EvYield C; EvYield D])
              end) default_tries 5 =
  GotRecords [A; B; C; D] (Some StopIteration) 2.
Proof. vm_compute. reflexivity. Qed.

(** The consumer holds [A; B]; the recreated producer gives [X] for [B]:
    no further record, and the inconsistency is reported. *)
Example inconsistent_from_the_call :
  call_and_iterate to_dict dict_eqb py_eqb is_LoggedOut inconsistent
                   default_tries 5 =
  GotRecords [A; B] (Some (BrowserUnavailable (RepliedInconsistently B X))) 2.
Proof. vm_compute. reflexivity. Qed.

Example shorter_from_the_call :
  call_and_iterate to_dict dict_eqb py_eqb is_LoggedOut shorter
                   default_tries 5 =
  GotRecords [A; B] (Some (BrowserUnavailable (RepliedFewer 2 2))) 2.
Proof. vm_compute. reflexivity. Qed.

Example always_failing_from_the_call :
  call_and_iterate to_dict dict_eqb py_eqb is_LoggedOut always_failing
                   default_tries 5 =
  GotRecords [A; B] (Some (BrowserUnavailable DidNotReply)) 4.
Proof. vm_compute. reflexivity. Qed.

(** A transient exception raised by the invocation that recreates the
    iterator is not retried: it reaches the consumer, with budget left. *)
Example recreation_refused_from_the_call :
  call_and_iterate to_dict dict_eqb py_eqb is_LoggedOut recreation_refused
                   default_tries 5 =
  GotRecords [A] (Some LoggedOut) 2.
Proof. vm_compute. reflexivity. Qed.

(** ** Scenarios for the invariants and the other methods *)

(** The iterator the wrapper returns for [recovering], and the iterator
    once the consumer has received three records. *)
Lemma budget_accounting_witness :
  0 <= 1 <= 3 /\
  (@None (exn record) = None -> Z.of_nat 4 + 1 = 4 + 1 /\ 1 <= 1) /\
  (1 = 0 -> Z.of_nat 4 = 4).
Proof.
  apply (@budget_accounting _ _ to_dict dict_eqb py_eqb is_LoggedOut
           recovering 4 3
           (mk_iter_retry (PyIter [EvYield A; EvYield B; EvRaise LoggedOut])
                          [] 3 2)
           2 [A; B; C] None
           (mk_iter_retry (PyIter [EvYield D]) [A; B; C] 1 4));
    reflexivity.
Defined.

Lemma items_are_the_records_returned_witness :
  items (mk_iter_retry (PyIter [EvYield D]) [A; B; C] 1 4) = [A; B; C].
Proof.
  apply (@items_are_the_records_returned _ _ to_dict dict_eqb py_eqb
           is_LoggedOut recovering 4 3
           (mk_iter_retry (PyIter [EvYield A; EvYield B; EvRaise LoggedOut])
                          [] 3 2)
           2 [A; B; C] None
           (mk_iter_retry (PyIter [EvYield D]) [A; B; C] 1 4));
    reflexivity.
Defined.

Lemma records_are_those_of_the_last_iterator_witness :
  exists rest j ys,
    it (mk_iter_retry (PyIter [EvYield D]) [A; B; C] 1 4) = PyIter rest /\
    cb_calls (mk_iter_retry (PyIter [EvYield D]) [A; B; C] 1 4) = S j /\
    recovering j = CallReturn (PyIter (map (@EvYield record) ys ++ rest)) /\
    Forall2 (same_or_agree to_dict dict_eqb py_eqb) [A; B; C] ys.
Proof.
  apply (@records_are_those_of_the_last_iterator _ _ to_dict dict_eqb py_eqb
           is_LoggedOut recovering 4 3
           (mk_iter_retry (PyIter [EvYield A; EvYield B; EvRaise LoggedOut])
                          [] 3 2)
           2 [A; B; C]
           (mk_iter_retry (PyIter [EvYield D]) [A; B; C] 1 4));
    reflexivity.
Defined.

Lemma failed_recreation_is_not_retried_witness :
  exists s0,
    wrapper is_LoggedOut recreation_refused 4 = (Return (Resumable s0), 1%nat) /\
    forall fuel, (1 < fuel)%nat ->
      for_loop to_dict dict_eqb py_eqb is_LoggedOut recreation_refused fuel s0 =
      ([A], Some LoggedOut, mk_iter_retry PyNone [A] 3 2).
Proof.
  apply (@failed_recreation_is_not_retried _ _ to_dict dict_eqb py_eqb
           is_LoggedOut recreation_refused 4 [A] LoggedOut LoggedOut []);
    try reflexivity.
  lia.
Defined.

Lemma iterator_not_closed_after_inconsistency_witness :
  exists s1,
    __next__ to_dict dict_eqb py_eqb is_LoggedOut inconsistent
             (mk_iter_retry PyNone [A; B] 3 1) =
    (Raise (BrowserUnavailable (RepliedInconsistently B X)), s1) /\
    __next__ to_dict dict_eqb py_eqb is_LoggedOut inconsistent s1 =
    (Return C, mk_iter_retry (PyIter [EvYield D]) [A; B; C] 3 2).
Proof.
  apply (@iterator_not_closed_after_inconsistency _ _ to_dict dict_eqb py_eqb
           is_LoggedOut inconsistent [A] [A] B X C [] [EvYield D] 3 1);
    try reflexivity.
  repeat constructor.
Defined.

Lemma get_account_is_first_match_witness :
  fst (get_account to_dict dict_eqb py_eqb is_LoggedOut recovering get_id
                   "C" 5) =
  Some (Return (Some C)).
Proof.
  apply (@get_account_is_first_match _ _ to_dict dict_eqb py_eqb is_LoggedOut
           recovering get_id [A; B; C; D] "C" 1 2).
  - each_record_agrees.
  - reflexivity.
  - unfold default_tries. lia.
  - intros j Hj. assert (j = 0)%nat by lia. subst j. raises_logged_out.
  - intros [|[|j]] Hj; [| |lia].
    + cut_after 2%nat.
    + cut_after 1%nat.
  - reflexivity.
  - simpl. lia.
Defined.

Lemma get_account_stops_at_first_match_witness :
  get_account to_dict dict_eqb py_eqb is_LoggedOut always_failing get_id
              "B" 2 =
  (Some (Return (Some B)), 2%nat).
Proof.
  apply (@get_account_stops_at_first_match _ _ to_dict dict_eqb py_eqb
           is_LoggedOut always_failing get_id "B" 1 [A] B [EvRaise LoggedOut]).
  - unfold default_tries. lia.
  - intros j Hj. assert (j = 0)%nat by lia. subst j. raises_logged_out.
  - reflexivity.
  - repeat constructor.
  - reflexivity.
  - simpl. lia.
Defined.

Lemma account_urls_narrow_to_a_candidate_witness :
  (@None (exn record) = None ->
   exists t, In t default_ACCOUNT_URLS /\ ["maSyntheseGratuite"%string] = [t]) /\
  (["maSyntheseGratuite"%string] = default_ACCOUNT_URLS \/
   exists t, In t default_ACCOUNT_URLS /\ ["maSyntheseGratuite"%string] = [t]).
Proof.
  apply (@account_urls_narrow_to_a_candidate record page_kind start_task
           page_is_error no_pop_up full_list submit_nothing at_home None
           (mk_accounts_browser ["maSyntheseGratuite"%string]
              (mk_browser 0 "https://www.ibps.example" "12345678" "guess"
                          AccountsPage))).
  reflexivity.
Defined.

Lemma accounts_list_unreachable_witness :
  exists b',
    go_on_accounts_list start_task_down page_is_error no_pop_up full_list
                        submit_nothing at_home =
    (Some (BrokenPageError record), b') /\
    ACCOUNT_URLS b' = default_ACCOUNT_URLS /\
    (default_ACCOUNT_URLS = [] -> b' = at_home).
Proof.
  apply (@accounts_list_unreachable record page_kind start_task_down
           page_is_error no_pop_up full_list submit_nothing at_home).
  intros t p _. eexists. split; reflexivity.
Defined.

Lemma kept_task_is_the_only_one_tried_again_witness :
  exists t, In t default_ACCOUNT_URLS /\
    ["maSyntheseGratuite"%string] = [t] /\
    go_on_accounts_list start_task page_is_error no_pop_up full_list
      submit_nothing
      (mk_accounts_browser ["maSyntheseGratuite"%string]
         (mk_browser 0 "https://www.ibps.example" "" "guess" AccountsPage)) =
    (Some (BrokenPageError record),
     mk_accounts_browser [t]
       (mk_browser 0 "https://www.ibps.example" "" "guess" NoPage)).
Proof.
  destruct (@kept_task_is_the_only_one_tried_again record page_kind
              start_task page_is_error no_pop_up full_list submit_nothing
              at_home
              (mk_accounts_browser ["maSyntheseGratuite"%string]
                 (mk_browser 0 "https://www.ibps.example" "12345678" "guess"
                             AccountsPage))
              eq_refl) as (t & Hin & Hu & Hnext).
  exists t. split; [exact Hin|]. split; [exact Hu|].
  apply Hnext.
  - reflexivity.
  - inversion Hu; subst t. reflexivity.
  - reflexivity.
Defined.

Lemma history_without_pdf_is_the_json_sorted_witness :
  get_invest_history (@snd string date) (Return true) true
                     (Return json_history) no_pdf =
  map (@EvYield transaction)
      [ ("arbitrage"%string, mk_date 2016 1 15);
        ("interets"%string, mk_date 2016 1 15);
        ("frais"%string, mk_date 2015 12 31);
        ("versement"%string, mk_date 2015 3 2) ] /\
  Permutation
    [ ("arbitrage"%string, mk_date 2016 1 15);
      ("interets"%string, mk_date 2016 1 15);
      ("frais"%string, mk_date 2015 12 31);
      ("versement"%string, mk_date 2015 3 2) ]
    json_history /\
  StronglySorted (fun a b : transaction => date_ltb (snd a) (snd b) = false)
    [ ("arbitrage"%string, mk_date 2016 1 15);
      ("interets"%string, mk_date 2016 1 15);
      ("frais"%string, mk_date 2015 12 31);
      ("versement"%string, mk_date 2015 3 2) ] /\
  (forall d,
     filter (fun tr : transaction => date_eqb (snd tr) d)
       [ ("arbitrage"%string, mk_date 2016 1 15);
         ("interets"%string, mk_date 2016 1 15);
         ("frais"%string, mk_date 2015 12 31);
         ("versement"%string, mk_date 2015 3 2) ] =
     filter (fun tr : transaction => date_eqb (snd tr) d) json_history).
Proof.
  apply (@history_without_pdf_is_the_json_sorted transaction (@snd string date)
           json_history no_pdf).
  intros tr _. eexists. split; reflexivity.
Defined.

Lemma end_of_data_is_retried_when_in_class_witness :
  call_and_iterate to_dict dict_eqb py_eqb (@is_Exception record) steady 4 3 =
  GotRecords [A; B] (Some (BrowserUnavailable DidNotReply)) 4.
Proof.
  apply (@end_of_data_is_retried_when_in_class _ _ to_dict dict_eqb py_eqb
           (@is_Exception record) steady [A; B] 4).
  - each_record_agrees.
  - reflexivity.
  - lia.
  - intros j _. reflexivity.
  - simpl. lia.
Defined.

Lemma replay_of_mixed_records_raises_attribute_error_witness :
  __next__ to_dict dict_eqb py_eqb is_LoggedOut steady
           (mk_iter_retry PyNone [Str "A"] 3 1) =
  (Raise AttributeError,
   mk_iter_retry (PyIter [EvYield B]) [Str "A"] 3 2).
Proof.
  apply (@replay_of_mixed_records_raises_attribute_error _ _ to_dict dict_eqb
           py_eqb is_LoggedOut steady [] [] (Str "A") A
           [("id", "A"); ("label", "Compte courant")]%string
           [] [EvYield B] 3 1);
    try reflexivity.
  constructor.
Defined.

Lemma replay_of_all_items_then_end_is_the_end_witness :
  __next__ to_dict dict_eqb py_eqb is_LoggedOut steady
           (mk_iter_retry PyNone [A; B] 3 1) =
  (Raise StopIteration, mk_iter_retry (PyIter []) [A; B] 3 2).
Proof.
  apply (@replay_of_all_items_then_end_is_the_end _ _ to_dict dict_eqb py_eqb
           is_LoggedOut steady [A; B] [A; B] 3 1);
    try reflexivity.
  repeat constructor.
Defined.

(** [get_accounts_list] on the list of two pages, and on the site that
    logs out after [C]. *)
Local Abbreviation list_accounts :=
  (get_accounts_list list_start_task never_here never_here never_here
     list_submit list_iban_task list_type_without_iban never_here
     list_go_iban list_get_iban list_set_iban list_iter_accounts
     always_here list_prev_action list_continue_prev list_continue_task).

Local Abbreviation list_accounts_logged_out :=
  (get_accounts_list list_start_task never_here never_here never_here
     list_submit list_iban_task list_type_without_iban never_here
     list_go_iban list_get_iban list_set_iban list_iter_accounts_logged_out
     always_here list_prev_action list_continue_prev list_continue_task).

Lemma iban_mode_lists_the_same_accounts_witness :
  exists ys tail,
    list_accounts 5%nat true list_home =
    Some (map (@EvYield listed) ys ++ tail) /\
    Forall2 (fun a y => exists iban, y = list_set_iban a iban)
            (firstn (List.length ys) [(A, None); (B, None); (C, None)]) ys /\
    ((tail = [] /\
      List.length ys = List.length [(A, @None string); (B, None); (C, None)]) \/
     exists e, tail = [EvRaise e]).
Proof.
  apply (@iban_mode_lists_the_same_accounts listed nat list_start_task
           never_here never_here never_here list_submit list_iban_task
           list_type_without_iban never_here list_go_iban list_get_iban
           list_set_iban nat list_iter_accounts always_here list_prev_action
           list_continue_prev list_continue_task 5%nat list_home
           [(A, None); (B, None); (C, None)]).
  reflexivity.
Defined.

Lemma iban_mode_yields_nothing_when_listing_fails_witness :
  list_accounts_logged_out 5%nat true list_home = Some [EvRaise LoggedOut].
Proof.
  apply (@iban_mode_yields_nothing_when_listing_fails listed nat
           list_start_task never_here never_here never_here list_submit
           list_iban_task list_type_without_iban never_here list_go_iban
           list_get_iban list_set_iban nat list_iter_accounts_logged_out
           always_here list_prev_action list_continue_prev list_continue_task
           5%nat list_home [(A, None); (B, None); (C, None)] LoggedOut).
  reflexivity.
Defined.

(** The list with the IBAN, run: [C], a market account, has none. *)
Example list_with_iban :
  list_accounts 5%nat true list_home =
  Some [EvYield (A, Some "FR76A"%string); EvYield (B, Some "FR76B"%string);
        EvYield (C, None)].
Proof. vm_compute. reflexivity. Qed.
